(** * A character-oriented CSV codec: reader and writer of [custom_csv.py]

    The development embeds the two classes of [custom_csv.py],
    [CustomCsvReader] and [CustomCsvWriter], as pure functions over explicit
    object states, and proves the properties of the codec's specification
    about them.

    Python strings are modelled by [string], one-character strings by
    [ascii], Python lists by [list].  A file object opened for reading is
    the text that is still unread; a file object opened for writing is the
    text written so far.  The delimiter and the quote character are single
    characters, as the data model of the specification has them. *)

From Stdlib Require Import Strings.String Strings.Ascii Lists.List Bool.Bool.
From Stdlib Require Import Arith.PeanoNat micromega.Lia.
From Stdlib Require Import Init.Decimal Numbers.DecimalString.
Import ListNotations.

Local Open Scope string_scope.
Local Open Scope list_scope.

(** ** Characters and strings *)

(** The two newline characters, line feed and carriage return, and the
    default delimiter and quote character. *)
Definition LF : ascii := "010"%char.
Definition CR : ascii := "013"%char.
Definition COMMA : ascii := ","%char.
Definition DQUOTE : ascii := "034"%char.

(** The test that [ch] is one of the two newline characters, as in
    [ch in (LF, CR)]. *)
Definition is_newline (ch : ascii) : bool :=
  Ascii.eqb ch LF || Ascii.eqb ch CR.

(** [c in s] for a one-character string [c]. *)
Fixpoint contains (c : ascii) (s : string) : bool :=
  match s with
  | EmptyString => false
  | String a s' => Ascii.eqb a c || contains c s'
  end.

(** [s.replace(old, new)] for a one-character string [old]. *)
Fixpoint replace (s : string) (old : ascii) (new : string) : string :=
  match s with
  | EmptyString => EmptyString
  | String a s' =>
      if Ascii.eqb a old then new ++ replace s' old new
      else String a (replace s' old new)
  end.

(** [c * 2] for a one-character string [c]. *)
Definition twice (c : ascii) : string := String c (String c EmptyString).

(** [join] of the empty string on [field_chars], a list of one-character
    strings. *)
Definition join_chars (field_chars : list ascii) : string :=
  string_of_list_ascii field_chars.

(** [bool(l)] for a list: a list is true when it is not empty. *)
Definition truthy {A : Type} (l : list A) : bool :=
  match l with
  | [] => false
  | _ :: _ => true
  end.

(** The result of a constructor call: the object, or the exception raised. *)
Inductive result (A : Type) : Type :=
| Ok (a : A)
| Raise (exn : string).
Arguments Ok {A} a.
Arguments Raise {A} exn.

(** ** The reader *)

Module CustomCsvReader.

(** The attributes of a reader object.  [file_obj] is the unread text of the
    source. *)
Record t : Type := Build {
  file_obj : string;
  delimiter : ascii;
  quotechar : ascii;
  _eof : bool
}.

(** [__init__]: stores its arguments and clears [_eof]; nothing is
    checked and nothing is raised. *)
Definition __init__ (file_obj : string) (delimiter quotechar : ascii)
  : result t :=
  Ok (Build file_obj delimiter quotechar false).

(** What one run of the [while True] loop of [_read_next_row] leaves:
    the value returned, the unread text and the new [_eof]. *)
Definition outcome : Type := (option (list string) * string * bool)%type.

(** The [while True] loop of [_read_next_row], started with the local
    variables [in_quotes], [field_chars] and [row] on the unread text
    [src].  [self.file_obj.read(1)] is the match on [src]: [EmptyString]
    is the empty string read at the end of the source.  The loop is
    entered with [_eof] false only. *)
Fixpoint read_loop (delimiter quotechar : ascii) (in_quotes : bool)
    (field_chars : list ascii) (row : list string) (src : string)
    {struct src} : outcome :=
  match src with
  | EmptyString =>
      (* ch is the empty string *)
      if in_quotes then
        (Some (row ++ [join_chars field_chars]), EmptyString, true)
      else if truthy field_chars || truthy row then
        (Some (row ++ [join_chars field_chars]), EmptyString, true)
      else (None, EmptyString, true)
  | String ch rest =>
      if Ascii.eqb ch quotechar then
        if in_quotes then
          (* next_ch = self.file_obj.read(1) *)
          match rest with
          | EmptyString =>
              (* next_ch is the empty string *)
              (Some (row ++ [join_chars field_chars]), EmptyString, true)
          | String next_ch rest' =>
              if Ascii.eqb next_ch quotechar then
                read_loop delimiter quotechar true
                  (field_chars ++ [quotechar]) row rest'
              else if Ascii.eqb next_ch delimiter then
                read_loop delimiter quotechar false
                  [] (row ++ [join_chars field_chars]) rest'
              else if is_newline next_ch then
                (Some (row ++ [join_chars field_chars]), rest', false)
              else
                read_loop delimiter quotechar false
                  (field_chars ++ [next_ch]) row rest'
          end
        else if negb (truthy field_chars) then
          read_loop delimiter quotechar true field_chars row rest
        else
          read_loop delimiter quotechar false (field_chars ++ [ch]) row rest
      else if Ascii.eqb ch delimiter && negb in_quotes then
        read_loop delimiter quotechar in_quotes
          [] (row ++ [join_chars field_chars]) rest
      else if is_newline ch && negb in_quotes then
        (Some (row ++ [join_chars field_chars]), rest, false)
      else
        read_loop delimiter quotechar in_quotes (field_chars ++ [ch]) row rest
  end.

(** [_read_next_row]: [None] when [_eof] is set, and otherwise the loop
    from [in_quotes = False], [field_chars = []], [row = []]. *)
Definition _read_next_row (self : t) : option (list string) * t :=
  if _eof self then (None, self)
  else
    let '(ret, unread, eof) :=
      read_loop (delimiter self) (quotechar self) false [] []
        (file_obj self) in
    (ret, Build unread (delimiter self) (quotechar self) eof).

(** What a call of [__next__] does: it raises [StopIteration] or returns a
    row. *)
Inductive next_result : Type :=
| StopIteration
| Row (row : list string).

(** [__next__]. *)
Definition __next__ (self : t) : next_result * t :=
  let '(row, self') := _read_next_row self in
  match row with
  | None => (StopIteration, self')
  | Some row => (Row row, self')
  end.

(** [list(reader)]: [__next__] is called until it raises [StopIteration].
    [fuel] bounds the number of calls; [None] is fuel running out. *)
Fixpoint list_ (fuel : nat) (self : t) : option (list (list string) * t) :=
  match fuel with
  | O => None
  | S fuel' =>
      match __next__ self with
      | (StopIteration, self') => Some ([], self')
      | (Row row, self') =>
          match list_ fuel' self' with
          | Some (rows, self'') => Some (row :: rows, self'')
          | None => None
          end
      end
  end.

(** [n] calls of [__next__] one after the other: what each call did, and
    the object they leave. *)
Fixpoint calls (n : nat) (self : t) : list next_result * t :=
  match n with
  | O => ([], self)
  | S n' =>
      let '(res, self') := __next__ self in
      let '(ress, self'') := calls n' self' in
      (res :: ress, self'')
  end.

End CustomCsvReader.

(** ** The writer *)

Module CustomCsvWriter.

(** The attributes of a writer object.  [file_obj] is the text written to
    the sink so far. *)
Record t : Type := Build {
  file_obj : string;
  delimiter : ascii;
  quotechar : ascii
}.

(** [__init__]: stores its arguments; nothing is checked and nothing is
    raised. *)
Definition __init__ (file_obj : string) (delimiter quotechar : ascii)
  : result t :=
  Ok (Build file_obj delimiter quotechar).

(** The test [needs_quotes] of [_escape_field]. *)
Definition needs_quotes (self : t) (field : string) : bool :=
  contains (delimiter self) field
  || contains (quotechar self) field
  || contains LF field
  || contains CR field.

(** [_escape_field]. *)
Definition _escape_field (self : t) (field : string) : string :=
  if needs_quotes self field then
    let escaped := replace field (quotechar self) (twice (quotechar self)) in
    String (quotechar self) (escaped ++ String (quotechar self) EmptyString)
  else field.

(** [self.file_obj.write(line)]. *)
Definition write (self : t) (line : string) : t :=
  Build (file_obj self ++ line) (delimiter self) (quotechar self).

(** [writerow], for a row of strings ([str(value)] is [value]). *)
Definition writerow (self : t) (row : list string) : t :=
  let escaped_fields := map (_escape_field self) row in
  let line :=
    (String.concat (String (delimiter self) EmptyString) escaped_fields
     ++ String LF EmptyString)%string in
  write self line.

(** [writerows]. *)
Definition writerows (self : t) (rows : list (list string)) : t :=
  fold_left writerow rows self.

End CustomCsvWriter.


(** ** Writing, then reading *)

(** The configuration invariant of the data model: the delimiter, the quote
    character and the newline characters are pairwise different. *)
Definition valid_config (delimiter quotechar : ascii) : Prop :=
  delimiter <> quotechar
  /\ is_newline delimiter = false
  /\ is_newline quotechar = false.

(** The configurations that the specification calls misuse. *)
Definition invalid_config (delimiter quotechar : ascii) : bool :=
  Ascii.eqb delimiter quotechar
  || is_newline delimiter
  || is_newline quotechar.

(** The cycle of [test_round_trip]: a writer on an empty buffer writes
    [rows], the buffer is rewound, and a reader on it is turned into a
    list.  A first component [None] would be the list never being
    complete. *)
Definition write_then_read (delimiter quotechar : ascii)
    (rows : list (list string)) : result (option (list (list string))) :=
  match CustomCsvWriter.__init__ EmptyString delimiter quotechar with
  | Raise e => Raise e
  | Ok writer =>
      let buffer :=
        CustomCsvWriter.file_obj (CustomCsvWriter.writerows writer rows) in
      match CustomCsvReader.__init__ buffer delimiter quotechar with
      | Raise e => Raise e
      | Ok reader =>
          Ok (option_map fst
                (CustomCsvReader.list_ (S (String.length buffer)) reader))
      end
  end.

(** [list(CustomCsvReader(StringIO(text), delimiter, quotechar))]. *)
Definition read_text (delimiter quotechar : ascii) (text : string)
  : option (list (list string)) :=
  match CustomCsvReader.__init__ text delimiter quotechar with
  | Raise _ => None
  | Ok reader =>
      option_map fst (CustomCsvReader.list_ (S (String.length text)) reader)
  end.

(** ** The escaping policy in the words of the specification *)

(** A field requires quoting if it contains the delimiter, the quote
    character, or either newline variant. *)
Definition spec_requires_quoting (delimiter quotechar : ascii)
    (field : string) : Prop :=
  In delimiter (list_ascii_of_string field)
  \/ In quotechar (list_ascii_of_string field)
  \/ In LF (list_ascii_of_string field)
  \/ In CR (list_ascii_of_string field).

(** Every literal quote character is replaced with two consecutive quote
    characters. *)
Fixpoint spec_double_quotes (quotechar : ascii) (field : string) : string :=
  match field with
  | EmptyString => EmptyString
  | String c field' =>
      if Ascii.eqb c quotechar
      then String quotechar (String quotechar
             (spec_double_quotes quotechar field'))
      else String c (spec_double_quotes quotechar field')
  end.

(** The field wrapped in quote characters. *)
Definition spec_quoted (quotechar : ascii) (field : string) : string :=
  String quotechar
    (spec_double_quotes quotechar field ++ String quotechar EmptyString).

(** Fields joined with a single delimiter character. *)
Fixpoint spec_joined (delimiter : ascii) (fields : list string) : string :=
  match fields with
  | [] => EmptyString
  | [field] => field
  | field :: fields' =>
      (field ++ String delimiter (spec_joined delimiter fields'))%string
  end.

(** ** Example texts *)

Definition q1 : string := String DQUOTE EmptyString.
Definition lf : string := String LF EmptyString.
Definition crlf : string := String CR (String LF EmptyString).

(** Rows with a comma, quote characters, a line feed, a carriage return
    and a NUL in their fields, and with empty fields. *)
Definition example_rows : list (list string) :=
  [["Name"; "Notes"]%string;
   ["a,b"%string; ("say " ++ q1 ++ "hi" ++ q1)%string; EmptyString];
   [EmptyString];
   [("l1" ++ lf ++ "l2" ++ crlf)%string; String "000" EmptyString; q1]].

(** ** Rows as they come back *)

(** A row as the reader gives it back after the writer wrote it: a row
    without fields comes back as the row of one empty field. *)
Definition as_read (row : list string) : list string :=
  match row with
  | [] => [EmptyString]
  | _ :: _ => row
  end.

(** A field in which the reader's loop, outside quotes, finds nothing
    special but the quote character: no delimiter and no newline
    character. *)
Definition unsplit (delimiter : ascii) (field : string) : Prop :=
  contains delimiter field = false
  /\ contains LF field = false
  /\ contains CR field = false.

(** ** The data of [benchmark.py] *)

(** [str(n)] for an integer [n] that is not negative, as the f-strings of
    [generate_synthetic_data] format the loop counters. *)
Definition str_int (n : nat) : string :=
  NilEmpty.string_of_uint (Nat.to_uint n).

(** The field that [generate_synthetic_data] appends for row [i] and
    column [j]. *)
Definition synthetic_field (i j : nat) : string :=
  if Nat.eqb j 0 then
    ("row" ++ str_int i ++ "_col" ++ str_int j)%string
  else if Nat.eqb j 1 then
    ("value, with comma " ++ str_int i ++ "-" ++ str_int j)%string
  else if Nat.eqb j 2 then
    ("line1-" ++ str_int i ++ "-" ++ str_int j ++ String LF EmptyString
     ++ "line2-" ++ str_int i ++ "-" ++ str_int j)%string
  else if Nat.eqb j 3 then
    ("plain" ++ str_int i ++ "-" ++ str_int j)%string
  else
    ("with " ++ String DQUOTE EmptyString ++ "quote"
     ++ String DQUOTE EmptyString ++ " " ++ str_int i ++ "-" ++ str_int j)%string.

(** [generate_synthetic_data(rows, cols)]: [range(n)] is [seq 0 n]. *)
Definition generate_synthetic_data (rows cols : nat) : list (list string) :=
  map (fun i => map (fun j => synthetic_field i j) (seq 0 cols))
    (seq 0 rows).

(** * Properties *)

(** ** Strings *)

Lemma append_assoc (a b c : string) :
  ((a ++ b) ++ c = a ++ (b ++ c))%string.
Proof.
  induction a as [|x a IH]; simpl; [reflexivity | now rewrite IH].
Qed.

Lemma append_empty_r (a : string) : (a ++ EmptyString)%string = a.
Proof.
  induction a as [|x a IH]; simpl; [reflexivity | now rewrite IH].
Qed.

Lemma length_append (a b : string) :
  String.length (a ++ b) = String.length a + String.length b.
Proof.
  induction a as [|x a IH]; simpl; [reflexivity | now rewrite IH].
Qed.

Lemma join_chars_of_string (s : string) :
  join_chars (list_ascii_of_string s) = s.
Proof. apply string_of_list_ascii_of_string. Qed.

Lemma contains_In (c : ascii) (s : string) :
  contains c s = true <-> In c (list_ascii_of_string s).
Proof.
  induction s as [|a s IH]; simpl.
  - split; [discriminate | tauto].
  - rewrite orb_true_iff, Ascii.eqb_eq, IH. tauto.
Qed.

Lemma contains_false_cons (c a : ascii) (s : string) :
  contains c (String a s) = false ->
  Ascii.eqb a c = false /\ contains c s = false.
Proof. simpl. apply orb_false_iff. Qed.

Lemma is_newline_LF : is_newline LF = true.
Proof. reflexivity. Qed.

(** ** The writer *)

Lemma replace_is_spec_double_quotes (q : ascii) (field : string) :
  replace field q (twice q) = spec_double_quotes q field.
Proof.
  induction field as [|a field IH]; simpl; [reflexivity|].
  destruct (Ascii.eqb a q); simpl; now rewrite IH.
Qed.

Lemma needs_quotes_spec (self : CustomCsvWriter.t) (field : string) :
  CustomCsvWriter.needs_quotes self field = true <->
  spec_requires_quoting (CustomCsvWriter.delimiter self)
    (CustomCsvWriter.quotechar self) field.
Proof.
  unfold CustomCsvWriter.needs_quotes, spec_requires_quoting.
  rewrite !orb_true_iff, !contains_In. tauto.
Qed.

Lemma concat_is_spec_joined (d : ascii) (fields : list string) :
  String.concat (String d EmptyString) fields = spec_joined d fields.
Proof.
  induction fields as [|f fields IH]; [reflexivity|].
  destruct fields as [|g fields]; [reflexivity|].
  change (String.concat (String d EmptyString) (f :: g :: fields))
    with (f ++ String d EmptyString
            ++ String.concat (String d EmptyString) (g :: fields))%string.
  rewrite IH. reflexivity.
Qed.

(** C2.  The writer's escaping policy.  A field is written in its quoted
    form (wrapped in quote characters, every quote character inside
    doubled) if and only if it contains the delimiter, the quote character,
    a line feed or a carriage return; a field that contains none of them is
    written as it is; and [writerow] appends to the sink the escaped fields
    joined by one delimiter character and followed by one line feed. *)
Theorem writer_escaping_policy (self : CustomCsvWriter.t) :
  let d := CustomCsvWriter.delimiter self in
  let q := CustomCsvWriter.quotechar self in
  (forall field,
      spec_requires_quoting d q field <->
      CustomCsvWriter._escape_field self field = spec_quoted q field)
  /\ (forall field,
      ~ spec_requires_quoting d q field <->
      CustomCsvWriter._escape_field self field = field)
  /\ (forall row,
      CustomCsvWriter.file_obj (CustomCsvWriter.writerow self row)
      = (CustomCsvWriter.file_obj self
         ++ spec_joined d (map (CustomCsvWriter._escape_field self) row)
         ++ String LF EmptyString)%string).
Proof.
  intros d q. subst d q.
  assert (Hq : forall field,
             CustomCsvWriter.needs_quotes self field = true ->
             CustomCsvWriter._escape_field self field
             = spec_quoted (CustomCsvWriter.quotechar self) field).
  { intros field H. unfold CustomCsvWriter._escape_field. rewrite H.
    unfold spec_quoted. now rewrite replace_is_spec_double_quotes. }
  assert (Hp : forall field,
             CustomCsvWriter.needs_quotes self field = false ->
             CustomCsvWriter._escape_field self field = field).
  { intros field H. unfold CustomCsvWriter._escape_field. now rewrite H. }
  assert (Hne : forall q field, spec_quoted q field <> field).
  { intros q field H. apply (f_equal String.length) in H.
    unfold spec_quoted in H. simpl in H. rewrite length_append in H.
    simpl in H.
    assert (String.length field <= String.length (spec_double_quotes q field)).
    { clear H. induction field as [|a field IH]; simpl; [lia|].
      destruct (Ascii.eqb a q); simpl; lia. }
    lia. }
  split; [|split].
  - intros field. rewrite <- needs_quotes_spec. split.
    + apply Hq.
    + intros H.
      destruct (CustomCsvWriter.needs_quotes self field) eqn:E; [reflexivity|].
      rewrite (Hp _ E) in H. symmetry in H. now apply Hne in H.
  - intros field. rewrite <- needs_quotes_spec. split.
    + intros H. apply Hp. now apply not_true_is_false.
    + intros H E. rewrite (Hq _ E) in H. now apply Hne in H.
  - intros row. unfold CustomCsvWriter.writerow, CustomCsvWriter.write.
    simpl. now rewrite concat_is_spec_joined.
Qed.

(** ** The reader: one run of the loop *)

Lemma app_one_not_nil {A : Type} (l : list A) (x : A) : l ++ [x] <> [].
Proof. destruct l; discriminate. Qed.

(** A branch of the loop that returns. *)
Ltac loop_returns H :=
  injection H as <- <- <-;
  repeat split; intros; auto; try (simpl; lia); try discriminate;
  try congruence.

(** A branch of the loop that goes round again, on a shorter text. *)
Ltac loop_continues IH H :=
  apply IH in H; [|simpl in *; lia];
  let L1 := fresh "L" in
  let L4 := fresh "L" in
  destruct H as (L1 & _ & ? & L4);
  repeat split; intros; auto; try (simpl in *; lia);
  match goal with
  | Hn : _ = None |- _ =>
      let Hq := fresh "Hq" in
      let Hf := fresh "Hf" in
      let Hr := fresh "Hr" in
      destruct (L4 Hn) as (_ & _ & Hq & Hf & Hr);
      try discriminate;
      try (now apply app_one_not_nil in Hf);
      try (now apply app_one_not_nil in Hr)
  end.

(** What a run of the loop leaves: the unread text never grows and gets
    shorter when there was something to read, [_eof] is set only with the
    source exhausted, and [None] is returned only when the loop started at
    the end of the source, outside quotes, with nothing accumulated. *)
Lemma read_loop_facts_upto (d q : ascii) (n : nat) :
  forall src, String.length src <= n ->
  forall in_quotes field_chars row ret unread eof,
    CustomCsvReader.read_loop d q in_quotes field_chars row src
    = (ret, unread, eof) ->
    String.length unread <= String.length src
    /\ (src <> EmptyString -> String.length unread < String.length src)
    /\ (eof = true -> unread = EmptyString)
    /\ (ret = None ->
        eof = true /\ src = EmptyString /\ in_quotes = false
        /\ field_chars = [] /\ row = []).
Proof.
  induction n as [|n IH]; intros src Hlen; destruct src as [|ch rest];
    simpl in Hlen; try lia; intros iq fc row ret u e H; simpl in H.
  1, 2: destruct iq; [|destruct fc; [destruct row|]]; simpl in H;
    loop_returns H.
  destruct (Ascii.eqb ch q).
  - destruct iq.
    + destruct rest as [|next rest']; [loop_returns H|].
      destruct (Ascii.eqb next q); [loop_continues IH H|].
      destruct (Ascii.eqb next d); [loop_continues IH H|].
      destruct (is_newline next); [loop_returns H | loop_continues IH H].
    + destruct (truthy fc); simpl in H; loop_continues IH H.
  - destruct (Ascii.eqb ch d && negb iq); [loop_continues IH H|].
    destruct (is_newline ch && negb iq);
      [loop_returns H | loop_continues IH H].
Qed.

Lemma read_loop_facts (d q : ascii) (src : string) :
  forall in_quotes field_chars row ret unread eof,
    CustomCsvReader.read_loop d q in_quotes field_chars row src
    = (ret, unread, eof) ->
    String.length unread <= String.length src
    /\ (src <> EmptyString -> String.length unread < String.length src)
    /\ (eof = true -> unread = EmptyString)
    /\ (ret = None ->
        eof = true /\ src = EmptyString /\ in_quotes = false
        /\ field_chars = [] /\ row = []).
Proof. apply (read_loop_facts_upto d q (String.length src)). lia. Qed.

(** ** The reader: one call, and the whole iteration *)

(** A call on a reader that has not seen the end of the source is one run
    of the loop from the initial values of the local variables. *)
Lemma read_next_row_unfold (self : CustomCsvReader.t) :
  CustomCsvReader._eof self = false ->
  CustomCsvReader._read_next_row self
  = let '(ret, unread, eof) :=
      CustomCsvReader.read_loop (CustomCsvReader.delimiter self)
        (CustomCsvReader.quotechar self) false [] []
        (CustomCsvReader.file_obj self) in
    (ret, CustomCsvReader.Build unread (CustomCsvReader.delimiter self)
            (CustomCsvReader.quotechar self) eof).
Proof. unfold CustomCsvReader._read_next_row. now intros ->. Qed.

(** A call on an exhausted source raises [StopIteration] and leaves a
    reader at the end of the stream. *)
Lemma next_on_exhausted (self : CustomCsvReader.t) :
  CustomCsvReader.file_obj self = EmptyString ->
  CustomCsvReader.__next__ self
  = (CustomCsvReader.StopIteration,
     CustomCsvReader.Build EmptyString (CustomCsvReader.delimiter self)
       (CustomCsvReader.quotechar self) true).
Proof.
  destruct self as [f d q e]; simpl; intros ->.
  unfold CustomCsvReader.__next__, CustomCsvReader._read_next_row; simpl.
  now destruct e.
Qed.

(** A call that raises [StopIteration] leaves [_eof] set. *)
Lemma next_stop_sets_eof (self self' : CustomCsvReader.t) :
  CustomCsvReader.__next__ self = (CustomCsvReader.StopIteration, self') ->
  CustomCsvReader._eof self' = true.
Proof.
  unfold CustomCsvReader.__next__, CustomCsvReader._read_next_row.
  destruct (CustomCsvReader._eof self) eqn:E.
  - intros H. injection H as <-. exact E.
  - destruct (CustomCsvReader.read_loop _ _ _ _ _ _) as [[ret u] e] eqn:L.
    destruct ret as [row|]; [discriminate|].
    intros H. injection H as <-. simpl.
    apply read_loop_facts in L. destruct L as (_ & _ & _ & L4).
    now destruct (L4 eq_refl).
Qed.

(** A call on a reader with [_eof] set raises [StopIteration] and changes
    nothing. *)
Lemma next_at_eof (self : CustomCsvReader.t) :
  CustomCsvReader._eof self = true ->
  CustomCsvReader.__next__ self = (CustomCsvReader.StopIteration, self).
Proof.
  unfold CustomCsvReader.__next__, CustomCsvReader._read_next_row.
  now intros ->.
Qed.

(** A call that returns a row has read at least one character, and sets
    [_eof] only with the source exhausted. *)
Lemma next_row_consumes (self self' : CustomCsvReader.t)
    (row : list string) :
  CustomCsvReader.__next__ self = (CustomCsvReader.Row row, self') ->
  String.length (CustomCsvReader.file_obj self')
  < String.length (CustomCsvReader.file_obj self)
  /\ (CustomCsvReader._eof self' = true ->
      CustomCsvReader.file_obj self' = EmptyString)
  /\ CustomCsvReader.delimiter self' = CustomCsvReader.delimiter self
  /\ CustomCsvReader.quotechar self' = CustomCsvReader.quotechar self.
Proof.
  unfold CustomCsvReader.__next__, CustomCsvReader._read_next_row.
  destruct (CustomCsvReader._eof self) eqn:E; [discriminate|].
  destruct (CustomCsvReader.read_loop _ _ _ _ _ _) as [[ret u] e] eqn:L.
  destruct ret as [r|]; [|discriminate].
  intros H. injection H as _ <-. simpl.
  destruct (CustomCsvReader.file_obj self) as [|ch rest] eqn:F;
    [discriminate|].
  apply read_loop_facts in L. destruct L as (_ & L2 & L3 & _).
  repeat split; auto. apply L2. discriminate.
Qed.

(** The iteration ends: with more calls allowed than there are unread
    characters, [list(reader)] is complete, and it leaves the source
    exhausted and [_eof] set. *)
Lemma list_complete (fuel : nat) :
  forall self,
    String.length (CustomCsvReader.file_obj self) < fuel ->
    (CustomCsvReader._eof self = true ->
     CustomCsvReader.file_obj self = EmptyString) ->
    exists rows,
      CustomCsvReader.list_ fuel self
      = Some (rows,
              CustomCsvReader.Build EmptyString
                (CustomCsvReader.delimiter self)
                (CustomCsvReader.quotechar self) true).
Proof.
  induction fuel as [|fuel IH]; intros self Hlen Heof; [lia|].
  simpl.
  destruct (CustomCsvReader.__next__ self) as [[|row] self'] eqn:N.
  - exists []. f_equal. f_equal.
    destruct (CustomCsvReader._eof self) eqn:E.
    + rewrite next_at_eof in N by exact E. injection N as <-.
      destruct self as [f d q e]; simpl in *. subst e.
      now rewrite Heof.
    + unfold CustomCsvReader.__next__ in N.
      rewrite read_next_row_unfold in N by exact E.
      destruct (CustomCsvReader.read_loop _ _ _ _ _ _) as [[ret u] e] eqn:L.
      destruct ret; [discriminate|]. injection N as <-.
      apply read_loop_facts in L. destruct L as (_ & _ & L3 & L4).
      destruct (L4 eq_refl) as (-> & _). now rewrite L3.
  - destruct (next_row_consumes _ _ _ N) as (H1 & H2 & Hd & Hq).
    destruct (IH self') as [rows Hrows]; [lia | exact H2 |].
    rewrite Hrows, Hd, Hq. now exists (row :: rows).
Qed.

(** More calls allowed than needed change nothing. *)
Lemma list_more_fuel (fuel : nat) :
  forall self res,
    CustomCsvReader.list_ fuel self = Some res ->
    forall fuel', fuel <= fuel' ->
    CustomCsvReader.list_ fuel' self = Some res.
Proof.
  induction fuel as [|fuel IH]; intros self res H fuel' Hle; [discriminate|].
  destruct fuel' as [|fuel']; [lia|].
  simpl in *.
  destruct (CustomCsvReader.__next__ self) as [[|row] self']; [exact H|].
  destruct (CustomCsvReader.list_ fuel self') as [[rows s'']|] eqn:E;
    [|discriminate].
  now rewrite (IH _ _ E fuel') by lia.
Qed.

(** C3.  Parsing is total.  Whatever the text of the source and whatever
    the delimiter and the quote character, constructing a reader succeeds
    and [list(reader)] is a list of rows, reached after at most one call of
    [__next__] more than the source has characters; the iteration leaves
    the source exhausted and [_eof] set.  The only signal the reader gives
    is [StopIteration]: there is no error outcome. *)
Theorem parsing_total (d q : ascii) (src : string) :
  exists reader rows,
    CustomCsvReader.__init__ src d q = Ok reader
    /\ CustomCsvReader.list_ (S (String.length src)) reader
       = Some (rows, CustomCsvReader.Build EmptyString d q true)
    /\ read_text d q src = Some rows.
Proof.
  destruct (list_complete (S (String.length src))
              (CustomCsvReader.Build src d q false)) as [rows H];
    simpl; [lia | discriminate |].
  exists (CustomCsvReader.Build src d q false), rows.
  unfold read_text. simpl in *. rewrite H. repeat split.
Qed.

(** ** Quotes *)

(** C4.  A quote opens quoting at the start of a field only.  Outside
    quotes, a quote character read with the field buffer empty opens a
    quoted section; read with characters already in the buffer, it is
    appended to the buffer as a literal character and the reader stays
    outside quotes.  Reading the four characters a, b, quote, c and then a
    comma and d gives the one row of two fields, the first with the quote
    in it as its third character. *)
Theorem quote_only_at_field_start (d q : ascii) :
  (forall row rest,
      CustomCsvReader.read_loop d q false [] row (String q rest)
      = CustomCsvReader.read_loop d q true [] row rest)
  /\ (forall c field_chars row rest,
      CustomCsvReader.read_loop d q false (c :: field_chars) row
        (String q rest)
      = CustomCsvReader.read_loop d q false ((c :: field_chars) ++ [q]) row
          rest)
  /\ read_text COMMA DQUOTE ("ab" ++ q1 ++ "c,d")%string
     = Some [[("ab" ++ q1 ++ "c")%string; "d"%string]].
Proof.
  split; [|split].
  - intros row rest. simpl. now rewrite Ascii.eqb_refl.
  - intros c fc row rest. simpl. now rewrite Ascii.eqb_refl.
  - reflexivity.
Qed.

(** C7.  Inside a quoted field, two quote characters in a row are one
    literal quote character of the field, and the reader stays inside
    quotes.  Reading the example text of the specification, whose second
    field is written in quotes with the word hi between doubled quotes,
    gives the one row of three fields, with hi between single quote
    characters in the second. *)
Theorem doubled_quote_decode (d q : ascii) :
  (forall field_chars row rest,
      CustomCsvReader.read_loop d q true field_chars row
        (String q (String q rest))
      = CustomCsvReader.read_loop d q true (field_chars ++ [q]) row rest)
  /\ read_text COMMA DQUOTE
       ("a," ++ q1 ++ "he said " ++ q1 ++ q1 ++ "hi" ++ q1 ++ q1 ++ q1
        ++ ",c")%string
     = Some [["a"%string;
              ("he said " ++ q1 ++ "hi" ++ q1)%string;
              "c"%string]].
Proof.
  split.
  - intros fc row rest. simpl. now rewrite Ascii.eqb_refl.
  - reflexivity.
Qed.

(** ** The end of the source *)



(** C10.  The end of the stream is sticky.  Once a call of [__next__] has
    raised [StopIteration], every later call raises it again and leaves
    the reader as it is, the unread text of the source included. *)
Theorem end_of_stream_sticky (self self' : CustomCsvReader.t) (n : nat) :
  CustomCsvReader.__next__ self = (CustomCsvReader.StopIteration, self') ->
  CustomCsvReader.calls n self'
  = (repeat CustomCsvReader.StopIteration n, self').
Proof.
  intros H. apply next_stop_sets_eof in H.
  induction n as [|n IH]; [reflexivity|].
  simpl. rewrite (next_at_eof _ H), IH. reflexivity.
Qed.

(** The end of the stream at work: a first call on an exhausted source
    raises [StopIteration], and so do the three calls after it. *)
Lemma end_of_stream_sticky_witness :
  CustomCsvReader.__next__
    (CustomCsvReader.Build EmptyString COMMA DQUOTE false)
  = (CustomCsvReader.StopIteration,
     CustomCsvReader.Build EmptyString COMMA DQUOTE true)
  /\ CustomCsvReader.calls 3
       (CustomCsvReader.Build EmptyString COMMA DQUOTE true)
     = (repeat CustomCsvReader.StopIteration 3,
        CustomCsvReader.Build EmptyString COMMA DQUOTE true).
Proof.
  split; [reflexivity|].
  apply (end_of_stream_sticky
           (CustomCsvReader.Build EmptyString COMMA DQUOTE false)).
  reflexivity.
Defined.

(** ** Line endings *)

(** C5, on the code.  With the default configuration, a carriage return
    outside quotes ends the row and leaves the line feed after it unread,
    and the next call reads that line feed as the end of a row of one
    empty field.  The text [a,b\r\nc,d\r\n] so gives four rows, where
    the text [a,b\nc,d\n] gives two. *)
Theorem crlf_gives_an_extra_row :
  (forall field_chars row rest,
      CustomCsvReader.read_loop COMMA DQUOTE false field_chars row
        (String CR (String LF rest))
      = (Some (row ++ [join_chars field_chars]), String LF rest, false)
      /\ CustomCsvReader.read_loop COMMA DQUOTE false [] [] (String LF rest)
         = (Some [EmptyString], rest, false))
  /\ read_text COMMA DQUOTE ("a,b" ++ crlf ++ "c,d" ++ crlf)%string
     = Some [["a"; "b"]; [EmptyString]; ["c"; "d"]; [EmptyString]]%string
  /\ read_text COMMA DQUOTE ("a,b" ++ lf ++ "c,d" ++ lf)%string
     = Some [["a"; "b"]; ["c"; "d"]]%string.
Proof. repeat split. Qed.

(** ** Construction *)

(** C8, as the code has it.  Constructing a reader or a writer checks
    nothing and always succeeds: the delimiter and the quote character are
    stored as they are given, whatever they are. *)
Theorem construction_never_fails (file_obj : string) (d q : ascii) :
  CustomCsvReader.__init__ file_obj d q
  = Ok (CustomCsvReader.Build file_obj d q false)
  /\ CustomCsvWriter.__init__ file_obj d q
     = Ok (CustomCsvWriter.Build file_obj d q).
Proof. split; reflexivity. Qed.

(** The claim C8 fails with the comma as delimiter and as quote character:
    both constructors succeed, and the row of the two fields [a] and [b]
    is written and read back as the row of the one field [a,b].  It fails
    with a line feed as delimiter too, where the same row is read back
    with a third, empty field. *)
Lemma construction_accepts_misuse :
  invalid_config COMMA COMMA = true
  /\ CustomCsvReader.__init__ "a,b"%string COMMA COMMA
     = Ok (CustomCsvReader.Build "a,b"%string COMMA COMMA false)
  /\ CustomCsvWriter.__init__ EmptyString COMMA COMMA
     = Ok (CustomCsvWriter.Build EmptyString COMMA COMMA)
  /\ write_then_read COMMA COMMA [["a"; "b"]]%string
     = Ok (Some [["a,b"]]%string)
  /\ invalid_config LF DQUOTE = true
  /\ CustomCsvWriter.__init__ EmptyString LF DQUOTE
     = Ok (CustomCsvWriter.Build EmptyString LF DQUOTE)
  /\ write_then_read LF DQUOTE [["a"; "b"]]%string
     = Ok (Some [["a"; "b"; EmptyString]]%string).
Proof. repeat split. Qed.

(** ** Writing, then reading *)

Section RoundTrip.

Variables d q : ascii.
Hypothesis valid : valid_config d q.

Lemma newline_not_eqb (c : ascii) :
  is_newline c = false -> Ascii.eqb LF c = false /\ Ascii.eqb CR c = false.
Proof.
  unfold is_newline. rewrite orb_false_iff, !Ascii.eqb_neq.
  intros [H1 H2]. split; congruence.
Qed.

(** Reading a field that was written as it is. *)
Lemma read_plain (field : string) :
  forall field_chars row tail,
    contains d field = false -> contains q field = false ->
    contains LF field = false -> contains CR field = false ->
    CustomCsvReader.read_loop d q false field_chars row (field ++ tail)
    = CustomCsvReader.read_loop d q false
        (field_chars ++ list_ascii_of_string field) row tail.
Proof.
  induction field as [|a field IH]; intros fc row tail Hd Hq Hlf Hcr.
  - simpl. now rewrite app_nil_r.
  - apply contains_false_cons in Hd, Hq, Hlf, Hcr.
    destruct Hd as [Ed Hd], Hq as [Eq Hq], Hlf as [Elf Hlf],
      Hcr as [Ecr Hcr].
    simpl. unfold is_newline. rewrite Eq, Ed, Elf, Ecr. simpl.
    rewrite IH by assumption. now rewrite <- app_assoc.
Qed.

(** Reading the inside of a field that was written in quotes. *)
Lemma read_quoted (field : string) :
  forall field_chars row tail,
    CustomCsvReader.read_loop d q true field_chars row
      (replace field q (twice q) ++ tail)
    = CustomCsvReader.read_loop d q true
        (field_chars ++ list_ascii_of_string field) row tail.
Proof.
  induction field as [|a field IH]; intros fc row tail.
  - simpl. now rewrite app_nil_r.
  - simpl replace. destruct (Ascii.eqb a q) eqn:E.
    + apply Ascii.eqb_eq in E. subst a.
      simpl. rewrite Ascii.eqb_refl.
      rewrite IH. now rewrite <- app_assoc.
    + simpl. rewrite E, !andb_false_r.
      rewrite IH. now rewrite <- app_assoc.
Qed.

Lemma valid_eqbs :
  Ascii.eqb d q = false
  /\ Ascii.eqb LF q = false /\ Ascii.eqb LF d = false.
Proof.
  destruct valid as (Hdq & Hd & Hq).
  apply newline_not_eqb in Hd, Hq.
  repeat split; try tauto. now apply Ascii.eqb_neq.
Qed.

(** Reading a written field up to the delimiter after it: the field is
    appended to the row and the next field starts. *)
Lemma read_field_then_delimiter (field : string) (row : list string)
    (rest : string) :
  CustomCsvReader.read_loop d q false [] row
    (CustomCsvWriter._escape_field (CustomCsvWriter.Build EmptyString d q)
       field ++ String d rest)
  = CustomCsvReader.read_loop d q false [] (row ++ [field]) rest.
Proof.
  destruct valid_eqbs as (Edq & _ & _).
  unfold CustomCsvWriter._escape_field.
  destruct (CustomCsvWriter.needs_quotes _ field) eqn:N; simpl.
  - rewrite Ascii.eqb_refl. simpl.
    rewrite append_assoc, read_quoted. simpl.
    rewrite Ascii.eqb_refl, Edq, Ascii.eqb_refl.
    now rewrite join_chars_of_string.
  - unfold CustomCsvWriter.needs_quotes in N. simpl in N.
    rewrite !orb_false_iff in N. destruct N as (((Hd & Hq) & Hlf) & Hcr).
    rewrite read_plain by assumption. simpl.
    rewrite Edq, Ascii.eqb_refl. simpl.
    now rewrite join_chars_of_string.
Qed.

(** Reading a written field up to a newline character after it: the field
    is appended to the row and the row is returned. *)
Lemma read_field_then_newline (nl : ascii) (field : string)
    (row : list string) (rest : string) :
  Ascii.eqb nl q = false -> Ascii.eqb nl d = false -> is_newline nl = true ->
  CustomCsvReader.read_loop d q false [] row
    (CustomCsvWriter._escape_field (CustomCsvWriter.Build EmptyString d q)
       field ++ String nl rest)
  = (Some (row ++ [field]), rest, false).
Proof.
  intros Enq End Enl.
  unfold CustomCsvWriter._escape_field.
  destruct (CustomCsvWriter.needs_quotes _ field) eqn:N; simpl.
  - rewrite Ascii.eqb_refl. simpl.
    rewrite append_assoc, read_quoted. simpl.
    rewrite Ascii.eqb_refl, Enq, End, Enl.
    now rewrite join_chars_of_string.
  - unfold CustomCsvWriter.needs_quotes in N. simpl in N.
    rewrite !orb_false_iff in N. destruct N as (((Hd & Hq) & Hlf) & Hcr).
    rewrite read_plain by assumption. simpl.
    rewrite Enq, End, Enl. simpl.
    now rewrite join_chars_of_string.
Qed.

Lemma concat_cons2 (sep x y : string) (l : list string) :
  String.concat sep (x :: y :: l)
  = (x ++ sep ++ String.concat sep (y :: l))%string.
Proof. reflexivity. Qed.

Local Abbreviation written_line row :=
  (String.concat (String d EmptyString)
     (map (CustomCsvWriter._escape_field
             (CustomCsvWriter.Build EmptyString d q)) row)).

(** Reading a written line: the row that was written, with the text after
    the line left unread. *)
Lemma read_line (fields : list string) :
  forall field row rest,
    CustomCsvReader.read_loop d q false [] row
      (String.concat (String d EmptyString)
         (map (CustomCsvWriter._escape_field
                 (CustomCsvWriter.Build EmptyString d q))
            (field :: fields))
       ++ String LF rest)
    = (Some (row ++ field :: fields), rest, false).
Proof.
  induction fields as [|g fields IH]; intros field row rest.
  - destruct valid_eqbs as (_ & Elq & Eld).
    simpl. now apply read_field_then_newline.
  - cbn [map] in IH |- *.
    rewrite concat_cons2, !append_assoc.
    change (String d EmptyString ++ ?x)%string with (String d x).
    rewrite read_field_then_delimiter, IH.
    now rewrite <- app_assoc.
Qed.

(** [writerow] appends the line of the row to the sink; the escaping looks
    at the delimiter and the quote character only. *)
Lemma writerow_build (sink : string) (row : list string) :
  CustomCsvWriter.writerow (CustomCsvWriter.Build sink d q) row
  = CustomCsvWriter.Build
      (sink ++ written_line row ++ String LF EmptyString) d q.
Proof. reflexivity. Qed.

(** What [writerows] appends to the sink is read back as the rows that
    were written, in as many calls as there are rows and one more. *)
Lemma written_rows_read_back (rows : list (list string)) :
  Forall (fun row => row <> []) rows ->
  forall sink,
  exists text,
    CustomCsvWriter.file_obj
      (CustomCsvWriter.writerows (CustomCsvWriter.Build sink d q) rows)
    = (sink ++ text)%string
    /\ List.length rows <= String.length text
    /\ forall fuel,
         List.length rows < fuel ->
         CustomCsvReader.list_ fuel (CustomCsvReader.Build text d q false)
         = Some (rows, CustomCsvReader.Build EmptyString d q true).
Proof.
  induction 1 as [|row rows Hrow _ IH]; intros sink.
  - exists EmptyString. simpl. rewrite append_empty_r.
    repeat split; auto.
    intros [|fuel] Hf; [lia|]. cbn [CustomCsvReader.list_].
    now rewrite next_on_exhausted.
  - destruct row as [|field fields]; [congruence|].
    cbn [CustomCsvWriter.writerows fold_left].
    rewrite writerow_build.
    fold (CustomCsvWriter.writerows
            (CustomCsvWriter.Build
               (sink ++ written_line (field :: fields) ++ String LF EmptyString)
               d q) rows).
    destruct (IH (sink ++ written_line (field :: fields)
                    ++ String LF EmptyString)%string)
      as (text & Htext & Hlen & Hread).
    exists (written_line (field :: fields) ++ String LF text)%string.
    split; [|split].
    + rewrite Htext. rewrite !append_assoc. reflexivity.
    + rewrite length_append. simpl. lia.
    + intros [|fuel] Hf; [lia|]. simpl in Hf.
      cbn [CustomCsvReader.list_].
      unfold CustomCsvReader.__next__, CustomCsvReader._read_next_row.
      cbn [CustomCsvReader._eof CustomCsvReader.file_obj
           CustomCsvReader.delimiter CustomCsvReader.quotechar].
      rewrite read_line. rewrite Hread by lia. reflexivity.
Qed.

(** C1, as the code has it.  The round trip.  With a delimiter, a quote
    character and the two newline characters that are pairwise different,
    and rows that have one field or more each, writing the rows with
    [writerows] and reading the text back gives exactly the rows that were
    written, whatever characters the fields hold: delimiters, quote
    characters, line feeds, carriage returns, NUL. *)
Theorem write_read_round_trip (rows : list (list string)) :
  Forall (fun row => row <> []) rows ->
  write_then_read d q rows = Ok (Some rows).
Proof.
  intros Hrows.
  destruct (written_rows_read_back rows Hrows EmptyString)
    as (text & Htext & Hlen & Hread).
  change (EmptyString ++ text)%string with text in Htext.
  unfold write_then_read, CustomCsvWriter.__init__, CustomCsvReader.__init__.
  cbv zeta. rewrite Htext, Hread by lia. reflexivity.
Qed.

End RoundTrip.

(** The round trip of [example_rows] with the default configuration. *)
Lemma write_read_round_trip_witness :
  valid_config COMMA DQUOTE
  /\ Forall (fun row : list string => row <> []) example_rows
  /\ write_then_read COMMA DQUOTE example_rows = Ok (Some example_rows).
Proof.
  assert (Hv : valid_config COMMA DQUOTE) by (repeat split; discriminate).
  assert (Hr : Forall (fun row : list string => row <> []) example_rows)
    by (repeat constructor; discriminate).
  split; [exact Hv | split; [exact Hr|]].
  exact (write_read_round_trip COMMA DQUOTE Hv example_rows Hr).
Defined.

(** The claim C1 fails on a row without fields: it is written as an empty
    line, and an empty line is read as the row of one empty field. *)
Lemma empty_row_not_read_back :
  write_then_read COMMA DQUOTE [[]] = Ok (Some [[EmptyString]])
  /\ write_then_read COMMA DQUOTE [[]] <> Ok (Some [[]]).
Proof. split; [reflexivity | discriminate]. Qed.

(** * Further properties of the reader *)

(** ** What a run of the loop consumes *)

Lemma contains_append (c : ascii) (a b : string) :
  contains c (a ++ b) = contains c a || contains c b.
Proof.
  induction a as [|x a IH]; simpl; [reflexivity|].
  now rewrite IH, orb_assoc.
Qed.

(** Rewriting with the tests that a case analysis has decided. *)
Ltac decided :=
  repeat match goal with
         | E : ?t = true |- context [?t] => rewrite E
         | E : ?t = false |- context [?t] => rewrite E
         end.

(** A run of the loop reads a prefix of the text and leaves the rest; and a
    run that ends at a row terminator gives the same row whatever follows
    the prefix it has read. *)
Lemma read_loop_prefix_upto (d q : ascii) (n : nat) :
  forall src, String.length src <= n ->
  forall in_quotes field_chars row ret unread eof,
    CustomCsvReader.read_loop d q in_quotes field_chars row src
    = (ret, unread, eof) ->
    exists consumed,
      src = (consumed ++ unread)%string
      /\ (eof = false ->
          forall tail,
            CustomCsvReader.read_loop d q in_quotes field_chars row
              (consumed ++ tail)
            = (ret, tail, false)).
Proof.
  induction n as [|n IH]; intros src Hlen; destruct src as [|ch rest];
    simpl in Hlen; try lia; intros iq fc row ret u e H; simpl in H.
  1, 2: destruct iq; [|destruct fc; [destruct row|]]; simpl in H;
    injection H as <- <- <-; exists EmptyString;
    (split; [reflexivity | discriminate]).
  assert (rec1 : forall iq' fc' row',
             CustomCsvReader.read_loop d q iq' fc' row' rest = (ret, u, e) ->
             exists c, rest = (c ++ u)%string
               /\ (e = false -> forall tail,
                     CustomCsvReader.read_loop d q iq' fc' row' (c ++ tail)
                     = (ret, tail, false))).
  { intros iq' fc' row' H'. apply (IH rest); [lia | exact H']. }
  destruct (Ascii.eqb ch q) eqn:Eq.
  - destruct iq.
    + destruct rest as [|next rest'].
      { injection H as <- <- <-. exists (String ch EmptyString).
        split; [reflexivity | discriminate]. }
      assert (rec2 : forall iq' fc' row',
                 CustomCsvReader.read_loop d q iq' fc' row' rest'
                 = (ret, u, e) ->
                 exists c, rest' = (c ++ u)%string
                   /\ (e = false -> forall tail,
                         CustomCsvReader.read_loop d q iq' fc' row'
                           (c ++ tail)
                         = (ret, tail, false))).
      { intros iq' fc' row' H'. apply (IH rest'); [simpl in *; lia | exact H']. }
      destruct (Ascii.eqb next q) eqn:E1;
        [|destruct (Ascii.eqb next d) eqn:E2;
          [|destruct (is_newline next) eqn:E3]].
      4: { apply rec2 in H. destruct H as (c & Hc & Ht).
           exists (String ch (String next c)). split; [simpl; congruence|].
           intros He tail. simpl. decided. now apply Ht. }
      3: { injection H as <- <- <-.
           exists (String ch (String next EmptyString)).
           split; [reflexivity|]. intros _ tail. simpl. now decided. }
      2: { apply rec2 in H. destruct H as (c & Hc & Ht).
           exists (String ch (String next c)). split; [simpl; congruence|].
           intros He tail. simpl. decided. now apply Ht. }
      apply rec2 in H. destruct H as (c & Hc & Ht).
      exists (String ch (String next c)). split; [simpl; congruence|].
      intros He tail. simpl. decided. now apply Ht.
    + destruct (truthy fc) eqn:Et; simpl in H;
        apply rec1 in H; destruct H as (c & Hc & Ht);
        exists (String ch c); (split; [simpl; congruence|]);
        intros He tail; simpl; decided; simpl; now apply Ht.
  - destruct (Ascii.eqb ch d && negb iq) eqn:E1;
      [|destruct (is_newline ch && negb iq) eqn:E2].
    + apply rec1 in H. destruct H as (c & Hc & Ht).
      exists (String ch c). split; [simpl; congruence|].
      intros He tail. simpl. decided. now apply Ht.
    + injection H as <- <- <-. exists (String ch EmptyString).
      split; [reflexivity|]. intros _ tail. simpl. now decided.
    + apply rec1 in H. destruct H as (c & Hc & Ht).
      exists (String ch c). split; [simpl; congruence|].
      intros He tail. simpl. decided. now apply Ht.
Qed.

(** The fields that a run of the loop finds closed stay as they are: the
    row it returns is the row so far followed by one field or more. *)
Lemma read_loop_row_grows_upto (d q : ascii) (n : nat) :
  forall src, String.length src <= n ->
  forall in_quotes field_chars row r unread eof,
    CustomCsvReader.read_loop d q in_quotes field_chars row src
    = (Some r, unread, eof) ->
    exists more, r = row ++ more /\ more <> [].
Proof.
  assert (ret : forall (row : list string) (f : string) r (u u' : string)
                  (e e' : bool),
             (Some (row ++ [f]), u, e) = (Some r, u', e') ->
             exists more, r = row ++ more /\ more <> []).
  { intros row f r u u' e e' H. injection H as <- _ _.
    exists [f]. split; [reflexivity | discriminate]. }
  induction n as [|n IH]; intros src Hlen; destruct src as [|ch rest];
    simpl in Hlen; try lia; intros iq fc row r u e H; simpl in H.
  1, 2: destruct iq; [|destruct (truthy fc || truthy row)];
    try discriminate; now apply ret in H.
  assert (same : forall s iq' fc',
             String.length s <= n ->
             CustomCsvReader.read_loop d q iq' fc' row s = (Some r, u, e) ->
             exists more, r = row ++ more /\ more <> []).
  { intros s iq' fc' Hs H'. now apply (IH s Hs) in H'. }
  assert (closed : forall s iq' fc' f,
             String.length s <= n ->
             CustomCsvReader.read_loop d q iq' fc' (row ++ [f]) s
             = (Some r, u, e) ->
             exists more, r = row ++ more /\ more <> []).
  { intros s iq' fc' f Hs H'. apply (IH s Hs) in H'.
    destruct H' as (more & -> & _). exists (f :: more).
    split; [now rewrite <- app_assoc | discriminate]. }
  destruct (Ascii.eqb ch q).
  - destruct iq.
    + destruct rest as [|next rest']; [now apply ret in H|].
      assert (Hr : String.length rest' <= n) by (simpl in *; lia).
      destruct (Ascii.eqb next q); [now apply same in H|].
      destruct (Ascii.eqb next d); [now apply closed in H|].
      destruct (is_newline next); [now apply ret in H | now apply same in H].
    + destruct (truthy fc); simpl in H; apply same in H; auto; lia.
  - destruct (Ascii.eqb ch d && negb iq); [apply closed in H; auto; lia|].
    destruct (is_newline ch && negb iq);
      [now apply ret in H | apply same in H; auto; lia].
Qed.

(** A call that returns a row, taken apart: [_eof] was not set, and the
    row, the unread text and the new [_eof] are those of one run of the
    loop. *)
Lemma next_row_inv (self self' : CustomCsvReader.t) (row : list string) :
  CustomCsvReader.__next__ self = (CustomCsvReader.Row row, self') ->
  CustomCsvReader._eof self = false
  /\ CustomCsvReader.delimiter self' = CustomCsvReader.delimiter self
  /\ CustomCsvReader.quotechar self' = CustomCsvReader.quotechar self
  /\ CustomCsvReader.read_loop (CustomCsvReader.delimiter self)
       (CustomCsvReader.quotechar self) false [] []
       (CustomCsvReader.file_obj self)
     = (Some row, CustomCsvReader.file_obj self',
        CustomCsvReader._eof self').
Proof.
  unfold CustomCsvReader.__next__, CustomCsvReader._read_next_row.
  destruct (CustomCsvReader._eof self) eqn:E; [discriminate|].
  destruct (CustomCsvReader.read_loop _ _ _ _ _ _) as [[ret u] e] eqn:L.
  destruct ret as [r|]; [|discriminate].
  intros H. injection H as <- <-. simpl. auto.
Qed.

(** A call that raises [StopIteration], taken apart: [_eof] was set and
    nothing changes, or the source was exhausted. *)
Lemma next_stop_inv (self self' : CustomCsvReader.t) :
  CustomCsvReader.__next__ self = (CustomCsvReader.StopIteration, self') ->
  (CustomCsvReader._eof self = true /\ self' = self)
  \/ (CustomCsvReader._eof self = false
      /\ CustomCsvReader.file_obj self = EmptyString
      /\ self' = CustomCsvReader.Build EmptyString
                   (CustomCsvReader.delimiter self)
                   (CustomCsvReader.quotechar self) true).
Proof.
  unfold CustomCsvReader.__next__, CustomCsvReader._read_next_row.
  destruct (CustomCsvReader._eof self) eqn:E.
  - intros H. injection H as <-. now left.
  - destruct (CustomCsvReader.read_loop _ _ _ _ _ _) as [[ret u] e] eqn:L.
    destruct ret as [r|]; [discriminate|].
    intros H. injection H as <-. right.
    apply read_loop_facts in L. destruct L as (_ & _ & L3 & L4).
    destruct (L4 eq_refl) as (-> & Hs & _).
    now rewrite (L3 eq_refl).
Qed.

(** ** Rows and reader states *)

(** X1.  Every row of [list(reader)] has one field or more: the reader never
    returns a row without fields, whatever the text, the delimiter and the
    quote character are. *)
Theorem rows_read_have_a_field (fuel : nat) :
  forall self rows self',
    CustomCsvReader.list_ fuel self = Some (rows, self') ->
    Forall (fun row : list string => row <> []) rows.
Proof.
  induction fuel as [|fuel IH]; intros self rows self' H; [discriminate|].
  simpl in H.
  destruct (CustomCsvReader.__next__ self) as [[|row] s1] eqn:N.
  - injection H as <- _. constructor.
  - destruct (CustomCsvReader.list_ fuel s1) as [[rows1 s2]|] eqn:L;
      [|discriminate].
    injection H as <- _. constructor; [|now apply (IH _ _ _ L)].
    apply next_row_inv in N. destruct N as (_ & _ & _ & R).
    apply (read_loop_row_grows_upto _ _ _ _ (Nat.le_refl _)) in R.
    destruct R as (more & -> & Hm). exact Hm.
Qed.

Lemma rows_read_have_a_field_witness :
  CustomCsvReader.list_ 3
    (CustomCsvReader.Build ("a,b" ++ lf ++ lf)%string COMMA DQUOTE false)
  = Some ([["a"; "b"]%string; [EmptyString]],
          CustomCsvReader.Build EmptyString COMMA DQUOTE true)
  /\ Forall (fun row : list string => row <> [])
       [["a"; "b"]%string; [EmptyString]].
Proof.
  split; [reflexivity|].
  apply (rows_read_have_a_field 3
           (CustomCsvReader.Build ("a,b" ++ lf ++ lf)%string COMMA DQUOTE
              false) _
           (CustomCsvReader.Build EmptyString COMMA DQUOTE true)).
  reflexivity.
Defined.

(** X2.  Each row costs a character: [list(reader)] has at most as many rows as
    the source has unread characters, and the characters it leaves unread
    come on top. *)
Theorem rows_read_bounded (fuel : nat) :
  forall self rows self',
    CustomCsvReader.list_ fuel self = Some (rows, self') ->
    List.length rows + String.length (CustomCsvReader.file_obj self')
    <= String.length (CustomCsvReader.file_obj self).
Proof.
  induction fuel as [|fuel IH]; intros self rows self' H; [discriminate|].
  simpl in H.
  destruct (CustomCsvReader.__next__ self) as [[|row] s1] eqn:N.
  - injection H as <- <-. simpl.
    apply next_stop_inv in N.
    destruct N as [(_ & ->) | (_ & _ & ->)]; simpl; lia.
  - destruct (CustomCsvReader.list_ fuel s1) as [[rows1 s2]|] eqn:L;
      [|discriminate].
    injection H as <- <-. simpl.
    apply IH in L. apply next_row_consumes in N. lia.
Qed.

Lemma rows_read_bounded_witness :
  CustomCsvReader.list_ 3
    (CustomCsvReader.Build ("a,b" ++ lf ++ lf)%string COMMA DQUOTE false)
  = Some ([["a"; "b"]%string; [EmptyString]],
          CustomCsvReader.Build EmptyString COMMA DQUOTE true)
  /\ 2 + 0 <= 5.
Proof.
  split; [reflexivity|].
  apply (rows_read_bounded 3
           (CustomCsvReader.Build ("a,b" ++ lf ++ lf)%string COMMA DQUOTE
              false)
           [["a"; "b"]%string; [EmptyString]]
           (CustomCsvReader.Build EmptyString COMMA DQUOTE true)).
  reflexivity.
Defined.

(** One call keeps what every reader reached from a constructor has: the
    unread text is a suffix of the text it was, and [_eof] is set with the
    source exhausted only. *)
Lemma next_keeps_invariant (self self' : CustomCsvReader.t)
    (res : CustomCsvReader.next_result) :
  CustomCsvReader.__next__ self = (res, self') ->
  (CustomCsvReader._eof self = true ->
   CustomCsvReader.file_obj self = EmptyString) ->
  CustomCsvReader.delimiter self' = CustomCsvReader.delimiter self
  /\ CustomCsvReader.quotechar self' = CustomCsvReader.quotechar self
  /\ (exists consumed,
        CustomCsvReader.file_obj self
        = (consumed ++ CustomCsvReader.file_obj self')%string)
  /\ (CustomCsvReader._eof self' = true ->
      CustomCsvReader.file_obj self' = EmptyString).
Proof.
  intros N Inv. destruct res as [|row].
  - apply next_stop_inv in N.
    destruct N as [(E & ->) | (E & F & ->)]; simpl.
    + repeat split; auto. now exists EmptyString.
    + repeat split; auto. exists EmptyString. now rewrite F.
  - pose proof (next_row_consumes _ _ _ N) as (_ & H2 & Hd & Hq).
    apply next_row_inv in N. destruct N as (_ & _ & _ & R).
    apply (read_loop_prefix_upto _ _ _ _ (Nat.le_refl _)) in R.
    destruct R as (c & Hc & _).
    repeat split; auto. now exists c.
Qed.

(** X3.  The state of a reader after any number of calls of [__next__]: the
    delimiter and the quote character are those it was constructed with,
    the unread text is a suffix of the text of the source, so that the
    reader moves forward only, and [_eof] is set only with the source
    exhausted. *)
Theorem reader_state_invariant (n : nat) (src : string) (d q : ascii) :
  let self := snd (CustomCsvReader.calls n
                     (CustomCsvReader.Build src d q false)) in
  CustomCsvReader.delimiter self = d
  /\ CustomCsvReader.quotechar self = q
  /\ (exists consumed,
        src = (consumed ++ CustomCsvReader.file_obj self)%string)
  /\ (CustomCsvReader._eof self = true ->
      CustomCsvReader.file_obj self = EmptyString).
Proof.
  cbv zeta.
  enough (G : forall self0,
             (CustomCsvReader._eof self0 = true ->
              CustomCsvReader.file_obj self0 = EmptyString) ->
             let self := snd (CustomCsvReader.calls n self0) in
             CustomCsvReader.delimiter self = CustomCsvReader.delimiter self0
             /\ CustomCsvReader.quotechar self
                = CustomCsvReader.quotechar self0
             /\ (exists consumed,
                   CustomCsvReader.file_obj self0
                   = (consumed ++ CustomCsvReader.file_obj self)%string)
             /\ (CustomCsvReader._eof self = true ->
                 CustomCsvReader.file_obj self = EmptyString)).
  { apply (G (CustomCsvReader.Build src d q false)). discriminate. }
  induction n as [|n IH]; intros self0 Inv; cbv zeta.
  - simpl. repeat split; auto. now exists EmptyString.
  - simpl.
    destruct (CustomCsvReader.__next__ self0) as [res s1] eqn:N.
    destruct (next_keeps_invariant _ _ _ N Inv) as (Hd & Hq & (c & Hc) & Inv1).
    specialize (IH s1 Inv1). cbv zeta in IH.
    destruct (CustomCsvReader.calls n s1) as [ress s2] eqn:C. simpl in *.
    destruct IH as (Hd2 & Hq2 & (c2 & Hc2) & Inv2).
    split; [congruence | split; [congruence | split; [|exact Inv2]]].
    exists (c ++ c2)%string. rewrite Hc, Hc2. now rewrite append_assoc.
Qed.

(** ** Complete lines *)

Lemma next_of_loop (d q : ascii) (src unread : string) (r : list string)
    (eof : bool) :
  CustomCsvReader.read_loop d q false [] [] src = (Some r, unread, eof) ->
  CustomCsvReader.__next__ (CustomCsvReader.Build src d q false)
  = (CustomCsvReader.Row r, CustomCsvReader.Build unread d q eof).
Proof.
  intros H. unfold CustomCsvReader.__next__, CustomCsvReader._read_next_row.
  cbn [CustomCsvReader._eof CustomCsvReader.file_obj
       CustomCsvReader.delimiter CustomCsvReader.quotechar].
  now rewrite H.
Qed.

Lemma calls_at_eof (n : nat) (self : CustomCsvReader.t) :
  CustomCsvReader._eof self = true ->
  CustomCsvReader.calls n self
  = (repeat CustomCsvReader.StopIteration n, self).
Proof.
  intros E. induction n as [|n IH]; [reflexivity|].
  simpl. now rewrite (next_at_eof _ E), IH.
Qed.

(** X4.  Complete lines are read alike whatever follows them.  When [n] calls
    of [__next__] use up a text and leave [_eof] clear, so that each call
    returned a row closed by a row terminator, the same calls on that text
    with more text after it return the same rows and leave exactly the
    text that was added unread. *)
Theorem complete_lines_read_alike (n : nat) (d q : ascii) :
  forall text results,
    CustomCsvReader.calls n (CustomCsvReader.Build text d q false)
    = (results, CustomCsvReader.Build EmptyString d q false) ->
    forall more,
      CustomCsvReader.calls n
        (CustomCsvReader.Build (text ++ more) d q false)
      = (results, CustomCsvReader.Build more d q false).
Proof.
  induction n as [|n IH]; intros text results H more.
  - simpl in H. injection H as <- ->. reflexivity.
  - simpl in H.
    destruct (CustomCsvReader.__next__ (CustomCsvReader.Build text d q false))
      as [res s1] eqn:N.
    destruct (CustomCsvReader.calls n s1) as [ress s2] eqn:C.
    injection H as <- ->.
    assert (E1 : CustomCsvReader._eof s1 = false).
    { destruct (CustomCsvReader._eof s1) eqn:E; [|reflexivity].
      rewrite (calls_at_eof n s1 E) in C. injection C as _ Hs.
      rewrite Hs in E. discriminate E. }
    destruct res as [|r].
    { apply next_stop_sets_eof in N. congruence. }
    apply next_row_inv in N. simpl in N.
    destruct N as (_ & Hd & Hq & R).
    destruct s1 as [u d1 q1' e1]. simpl in *. subst d1 q1' e1.
    apply (read_loop_prefix_upto _ _ _ _ (Nat.le_refl _)) in R.
    destruct R as (c & -> & Ht).
    rewrite append_assoc.
    rewrite (next_of_loop _ _ _ _ _ _ (Ht eq_refl (u ++ more)%string)).
    now rewrite (IH u ress C more).
Qed.

Lemma complete_lines_read_alike_witness :
  CustomCsvReader.calls 2
    (CustomCsvReader.Build ("a,b" ++ lf ++ "c" ++ lf)%string COMMA DQUOTE
       false)
  = ([CustomCsvReader.Row ["a"; "b"]%string;
      CustomCsvReader.Row ["c"%string]],
     CustomCsvReader.Build EmptyString COMMA DQUOTE false)
  /\ CustomCsvReader.calls 2
       (CustomCsvReader.Build
          (("a,b" ++ lf ++ "c" ++ lf) ++ "d,e")%string COMMA DQUOTE false)
     = ([CustomCsvReader.Row ["a"; "b"]%string;
         CustomCsvReader.Row ["c"%string]],
        CustomCsvReader.Build "d,e"%string COMMA DQUOTE false).
Proof.
  split; [reflexivity|].
  apply (complete_lines_read_alike 2 COMMA DQUOTE
           ("a,b" ++ lf ++ "c" ++ lf)%string).
  reflexivity.
Defined.

(** ** Texts without quote characters *)

Lemma unsplit_join_chars (d : ascii) (field_chars : list ascii) :
  Forall (fun c => Ascii.eqb c d = false /\ is_newline c = false)
    field_chars ->
  unsplit d (join_chars field_chars).
Proof.
  unfold unsplit, is_newline.
  induction 1 as [|c l (Hd & Hn) _ (I1 & I2 & I3)]; simpl; [auto|].
  apply orb_false_iff in Hn. destruct Hn as (Hlf & Hcr).
  unfold join_chars in *. now rewrite Hd, Hlf, Hcr, I1, I2, I3.
Qed.

(** In a text without quote characters, the fields of a row that the loop
    returns hold no delimiter and no newline character. *)
Lemma read_loop_unsplit (d q : ascii) (src : string) :
  forall field_chars row r unread eof,
    contains q src = false ->
    Forall (fun c => Ascii.eqb c d = false /\ is_newline c = false)
      field_chars ->
    Forall (unsplit d) row ->
    CustomCsvReader.read_loop d q false field_chars row src
    = (Some r, unread, eof) ->
    Forall (unsplit d) r.
Proof.
  induction src as [|ch rest IH]; intros fc row r u e Hq Hfc Hrow H;
    simpl in H.
  - destruct (truthy fc || truthy row); [|discriminate].
    injection H as <- _ _. apply Forall_app. split; [exact Hrow|].
    constructor; [|constructor]. now apply unsplit_join_chars.
  - apply contains_false_cons in Hq. destruct Hq as (Eq & Hq).
    rewrite Eq in H. rewrite !andb_true_r in H.
    destruct (Ascii.eqb ch d) eqn:Ed.
    + apply (IH _ _ _ _ _ Hq) in H; auto.
      apply Forall_app. split; [exact Hrow|].
      constructor; [|constructor]. now apply unsplit_join_chars.
    + destruct (is_newline ch) eqn:En.
      * injection H as <- _ _. apply Forall_app. split; [exact Hrow|].
        constructor; [|constructor]. now apply unsplit_join_chars.
      * apply (IH _ _ _ _ _ Hq) in H; auto.
        apply Forall_app. split; [exact Hfc|]. now repeat constructor.
Qed.

(** X5.  Without quote characters in the text there is no quoting: no field of
    a row of [list(reader)] holds a delimiter or a newline character. *)
Theorem unquoted_text_fields (fuel : nat) :
  forall self rows self',
    contains (CustomCsvReader.quotechar self) (CustomCsvReader.file_obj self)
    = false ->
    CustomCsvReader.list_ fuel self = Some (rows, self') ->
    Forall (Forall (unsplit (CustomCsvReader.delimiter self))) rows.
Proof.
  induction fuel as [|fuel IH]; intros self rows self' Hq H; [discriminate|].
  simpl in H.
  destruct (CustomCsvReader.__next__ self) as [[|row] s1] eqn:N.
  - injection H as <- _. constructor.
  - destruct (CustomCsvReader.list_ fuel s1) as [[rows1 s2]|] eqn:L;
      [|discriminate].
    injection H as <- _.
    apply next_row_inv in N. destruct N as (_ & Hd & Hq1 & R).
    constructor.
    + now apply (read_loop_unsplit _ _ _ _ _ _ _ _ Hq (Forall_nil _)
                   (Forall_nil _)) in R.
    + rewrite <- Hd. refine (IH _ _ _ _ L).
      apply (read_loop_prefix_upto _ _ _ _ (Nat.le_refl _)) in R.
      destruct R as (c & Hc & _).
      rewrite Hc, contains_append, orb_false_iff in Hq.
      rewrite Hq1. tauto.
Qed.

Lemma unquoted_text_fields_witness :
  contains DQUOTE ("a,b" ++ crlf ++ "c")%string = false
  /\ CustomCsvReader.list_ 4
       (CustomCsvReader.Build ("a,b" ++ crlf ++ "c")%string COMMA DQUOTE
          false)
     = Some ([["a"; "b"]%string; [EmptyString]; ["c"%string]],
             CustomCsvReader.Build EmptyString COMMA DQUOTE true)
  /\ Forall (Forall (unsplit COMMA))
       [["a"; "b"]%string; [EmptyString]; ["c"%string]].
Proof.
  assert (Hq : contains DQUOTE ("a,b" ++ crlf ++ "c")%string = false)
    by reflexivity.
  split; [exact Hq | split; [reflexivity|]].
  apply (unquoted_text_fields 4
           (CustomCsvReader.Build ("a,b" ++ crlf ++ "c")%string COMMA DQUOTE
              false) _
           (CustomCsvReader.Build EmptyString COMMA DQUOTE true) Hq).
  reflexivity.
Defined.

(** ** Plain lines *)

(** A field is plain when the writer writes it as it is. *)
Local Abbreviation plain d q :=
  (fun f : string =>
     CustomCsvWriter.needs_quotes (CustomCsvWriter.Build EmptyString d q) f
     = false).

Lemma read_plain_field (d q : ascii) (f : string) :
  plain d q f ->
  forall fc row tail,
    CustomCsvReader.read_loop d q false fc row (f ++ tail)
    = CustomCsvReader.read_loop d q false (fc ++ list_ascii_of_string f)
        row tail.
Proof.
  intros N. unfold CustomCsvWriter.needs_quotes in N. simpl in N.
  rewrite !orb_false_iff in N. destruct N as (((Hd & Hq) & Hlf) & Hcr).
  intros fc row tail. now apply read_plain.
Qed.

Lemma read_plain_then_delimiter (d q : ascii) (f : string)
    (row : list string) (rest : string) :
  Ascii.eqb d q = false -> plain d q f ->
  CustomCsvReader.read_loop d q false [] row (f ++ String d rest)
  = CustomCsvReader.read_loop d q false [] (row ++ [f]) rest.
Proof.
  intros Edq N. rewrite (read_plain_field d q f N). simpl.
  rewrite Edq, Ascii.eqb_refl. simpl. now rewrite join_chars_of_string.
Qed.

Lemma read_plain_then_newline (d q nl : ascii) (f : string)
    (row : list string) (rest : string) :
  Ascii.eqb nl q = false -> Ascii.eqb nl d = false -> is_newline nl = true ->
  plain d q f ->
  CustomCsvReader.read_loop d q false [] row (f ++ String nl rest)
  = (Some (row ++ [f]), rest, false).
Proof.
  intros Enq End Enl N. rewrite (read_plain_field d q f N). simpl.
  rewrite Enq, End, Enl. simpl. now rewrite join_chars_of_string.
Qed.

Lemma read_plain_then_end (d q : ascii) (f : string) (row : list string) :
  plain d q f -> row <> [] \/ f <> EmptyString ->
  CustomCsvReader.read_loop d q false [] row f
  = (Some (row ++ [f]), EmptyString, true).
Proof.
  intros N Hne. rewrite <- (append_empty_r f) at 1.
  rewrite (read_plain_field d q f N). simpl.
  rewrite join_chars_of_string.
  destruct f as [|a f]; simpl; [|reflexivity].
  destruct row; [|reflexivity]. destruct Hne; congruence.
Qed.

(** A line of plain fields closed by a newline character: the row of the
    fields, with the text after the line left unread. *)
Lemma read_plain_line (d q nl : ascii) (fields : list string) :
  Ascii.eqb d q = false ->
  Ascii.eqb nl q = false -> Ascii.eqb nl d = false -> is_newline nl = true ->
  forall field row rest,
    Forall (plain d q) (field :: fields) ->
    CustomCsvReader.read_loop d q false [] row
      (String.concat (String d EmptyString) (field :: fields)
       ++ String nl rest)
    = (Some (row ++ field :: fields), rest, false).
Proof.
  intros Edq Enq End Enl.
  induction fields as [|g fields IH]; intros field row rest Hall;
    inversion_clear Hall as [|? ? Hf Hrest].
  - simpl. now apply read_plain_then_newline.
  - rewrite concat_cons2, !append_assoc.
    change (String d EmptyString ++ ?x)%string with (String d x).
    rewrite (read_plain_then_delimiter d q field row _ Edq Hf).
    rewrite (IH g (row ++ [field]) rest Hrest).
    now rewrite <- app_assoc.
Qed.

(** A last line of plain fields that the source ends without a row
    terminator. *)
Lemma read_plain_last_line (d q : ascii) (fields : list string) :
  Ascii.eqb d q = false ->
  forall field row,
    Forall (plain d q) (field :: fields) ->
    row <> [] \/ fields <> [] \/ field <> EmptyString ->
    CustomCsvReader.read_loop d q false [] row
      (String.concat (String d EmptyString) (field :: fields))
    = (Some (row ++ field :: fields), EmptyString, true).
Proof.
  intros Edq.
  induction fields as [|g fields IH]; intros field row Hall Hne;
    inversion_clear Hall as [|? ? Hf Hrest].
  - simpl. apply read_plain_then_end; [exact Hf|].
    destruct Hne as [H | [H | H]]; [now left | congruence | now right].
  - rewrite concat_cons2.
    change (String d EmptyString ++ ?x)%string with (String d x).
    rewrite (read_plain_then_delimiter d q field row _ Edq Hf).
    rewrite (IH g (row ++ [field]) Hrest).
    + now rewrite <- app_assoc.
    + left. apply app_one_not_nil.
Qed.

(** X6.  Plain text is split at the delimiters.  With a valid configuration, a
    line of fields that hold no delimiter, no quote character and no
    newline character is read as the row of these fields, empty fields
    included, whether the line ends with a line feed, with a carriage
    return or, unless it is empty, with the source. *)
Theorem plain_line_split (d q : ascii) (field : string)
    (fields : list string) :
  valid_config d q ->
  Forall (fun f => contains d f = false /\ contains q f = false
                   /\ contains LF f = false /\ contains CR f = false)
    (field :: fields) ->
  let line := String.concat (String d EmptyString) (field :: fields) in
  (forall nl rest,
      is_newline nl = true ->
      CustomCsvReader.__next__
        (CustomCsvReader.Build (line ++ String nl rest) d q false)
      = (CustomCsvReader.Row (field :: fields),
         CustomCsvReader.Build rest d q false))
  /\ (line <> EmptyString ->
      CustomCsvReader.__next__ (CustomCsvReader.Build line d q false)
      = (CustomCsvReader.Row (field :: fields),
         CustomCsvReader.Build EmptyString d q true)).
Proof.
  intros (Hdq & Hd & Hq) Hall line.
  assert (Edq : Ascii.eqb d q = false) by now apply Ascii.eqb_neq.
  assert (Hplain : Forall (plain d q) (field :: fields)).
  { eapply Forall_impl; [|exact Hall]. intros f (H1 & H2 & H3 & H4).
    unfold CustomCsvWriter.needs_quotes. simpl. now rewrite H1, H2, H3, H4. }
  split.
  - intros nl rest Hnl. apply next_of_loop.
    apply (read_plain_line d q nl fields Edq); auto.
    + destruct (Ascii.eqb nl q) eqn:E; [|reflexivity].
      apply Ascii.eqb_eq in E. congruence.
    + destruct (Ascii.eqb nl d) eqn:E; [|reflexivity].
      apply Ascii.eqb_eq in E. congruence.
  - intros Hline. apply next_of_loop.
    apply (read_plain_last_line d q fields Edq field [] Hplain).
    right. destruct fields as [|g fields]; [right | left; discriminate].
    intros ->. now apply Hline.
Qed.

(** The line with an empty field in the middle, closed by a carriage
    return and closed by the end of the source. *)
Lemma plain_line_split_witness :
  valid_config COMMA DQUOTE
  /\ CustomCsvReader.__next__
       (CustomCsvReader.Build ("a,,c" ++ String CR "x")%string COMMA DQUOTE
          false)
     = (CustomCsvReader.Row ["a"%string; EmptyString; "c"%string],
        CustomCsvReader.Build "x"%string COMMA DQUOTE false)
  /\ CustomCsvReader.__next__
       (CustomCsvReader.Build "a,,c"%string COMMA DQUOTE false)
     = (CustomCsvReader.Row ["a"%string; EmptyString; "c"%string],
        CustomCsvReader.Build EmptyString COMMA DQUOTE true).
Proof.
  assert (Hv : valid_config COMMA DQUOTE) by (repeat split; discriminate).
  assert (Hall : Forall (fun f => contains COMMA f = false
                                  /\ contains DQUOTE f = false
                                  /\ contains LF f = false
                                  /\ contains CR f = false)
                   ["a"%string; EmptyString; "c"%string])
    by (repeat constructor).
  pose proof (plain_line_split COMMA DQUOTE "a"%string
                [EmptyString; "c"%string] Hv Hall) as (H1 & H2).
  split; [exact Hv | split].
  - exact (H1 CR "x"%string eq_refl).
  - apply H2. discriminate.
Defined.

(** ** Quoted fields *)

Lemma read_open_quote (d q : ascii) (row : list string) (rest : string) :
  CustomCsvReader.read_loop d q false [] row (String q rest)
  = CustomCsvReader.read_loop d q true [] row rest.
Proof. simpl. now rewrite Ascii.eqb_refl. Qed.

(** X7.  A field in quotes is read as what is between the quotes, with each
    doubled quote character read as one: whatever the field holds,
    delimiters and newline characters included, its quoted form is read
    back as the field, whether a delimiter, a newline character or the end
    of the source comes after the closing quote. *)
Theorem quoted_field_decodes (d q : ascii) (field : string)
    (row : list string) :
  valid_config d q ->
  (forall rest,
      CustomCsvReader.read_loop d q false [] row
        (spec_quoted q field ++ String d rest)
      = CustomCsvReader.read_loop d q false [] (row ++ [field]) rest)
  /\ (forall nl rest,
      is_newline nl = true ->
      CustomCsvReader.read_loop d q false [] row
        (spec_quoted q field ++ String nl rest)
      = (Some (row ++ [field]), rest, false))
  /\ CustomCsvReader.read_loop d q false [] row (spec_quoted q field)
     = (Some (row ++ [field]), EmptyString, true).
Proof.
  intros (Hdq & Hd & Hq).
  assert (Edq : Ascii.eqb d q = false) by now apply Ascii.eqb_neq.
  assert (open : forall tail,
             CustomCsvReader.read_loop d q false [] row
               (spec_quoted q field ++ tail)
             = CustomCsvReader.read_loop d q true
                 (list_ascii_of_string field) row (String q tail)).
  { intros tail.
    change (spec_quoted q field ++ tail)%string
      with (String q ((spec_double_quotes q field ++ String q EmptyString)
                      ++ tail)).
    rewrite read_open_quote, append_assoc.
    rewrite <- replace_is_spec_double_quotes, read_quoted. reflexivity. }
  split; [|split].
  - intros rest. rewrite open. simpl.
    rewrite Ascii.eqb_refl, Edq, Ascii.eqb_refl.
    now rewrite join_chars_of_string.
  - intros nl rest Hnl. rewrite open. simpl.
    assert (Enq : Ascii.eqb nl q = false).
    { destruct (Ascii.eqb nl q) eqn:E; [|reflexivity].
      apply Ascii.eqb_eq in E. congruence. }
    assert (End : Ascii.eqb nl d = false).
    { destruct (Ascii.eqb nl d) eqn:E; [|reflexivity].
      apply Ascii.eqb_eq in E. congruence. }
    rewrite Ascii.eqb_refl, Enq, End, Hnl.
    now rewrite join_chars_of_string.
  - rewrite <- (append_empty_r (spec_quoted q field)). rewrite open. simpl.
    rewrite Ascii.eqb_refl. now rewrite join_chars_of_string.
Qed.

Lemma quoted_field_decodes_witness :
  valid_config COMMA DQUOTE
  /\ CustomCsvReader.read_loop COMMA DQUOTE false [] ["x"%string]
       (spec_quoted DQUOTE ("a," ++ q1 ++ lf)%string)
     = (Some ["x"%string; ("a," ++ q1 ++ lf)%string], EmptyString, true).
Proof.
  assert (Hv : valid_config COMMA DQUOTE) by (repeat split; discriminate).
  split; [exact Hv|].
  apply (quoted_field_decodes COMMA DQUOTE ("a," ++ q1 ++ lf)%string
           ["x"%string] Hv).
Defined.

(** X8.  A quote that is not closed takes the rest of the source.  When the
    text after an opening quote at the start of a row holds no further
    quote character, the call returns one row of one field, that text as
    it is with its delimiters and newline characters, and sets [_eof]. *)
Theorem unclosed_quote_takes_the_rest (d q : ascii) (text : string) :
  contains q text = false ->
  CustomCsvReader.__next__ (CustomCsvReader.Build (String q text) d q false)
  = (CustomCsvReader.Row [text],
     CustomCsvReader.Build EmptyString d q true).
Proof.
  intros Hq. apply next_of_loop. rewrite read_open_quote.
  assert (G : forall fc,
             CustomCsvReader.read_loop d q true fc [] text
             = (Some [join_chars (fc ++ list_ascii_of_string text)],
                EmptyString, true)).
  { induction text as [|a text IH]; intros fc.
    - simpl. now rewrite app_nil_r.
    - apply contains_false_cons in Hq. destruct Hq as (Ea & Hq).
      simpl. rewrite Ea, !andb_false_r. rewrite (IH Hq).
      now rewrite <- app_assoc. }
  rewrite G. simpl. now rewrite join_chars_of_string.
Qed.

Lemma unclosed_quote_takes_the_rest_witness :
  contains DQUOTE ("a,b" ++ lf ++ "c,d" ++ lf)%string = false
  /\ CustomCsvReader.__next__
       (CustomCsvReader.Build
          (String DQUOTE ("a,b" ++ lf ++ "c,d" ++ lf)%string) COMMA DQUOTE
          false)
     = (CustomCsvReader.Row [("a,b" ++ lf ++ "c,d" ++ lf)%string],
        CustomCsvReader.Build EmptyString COMMA DQUOTE true).
Proof.
  assert (Hq : contains DQUOTE ("a,b" ++ lf ++ "c,d" ++ lf)%string = false)
    by reflexivity.
  split; [exact Hq|].
  apply (unclosed_quote_takes_the_rest COMMA DQUOTE _ Hq).
Defined.

(** * Further properties of the writer *)

(** ** The sink *)

Lemma writerows_cons (w : CustomCsvWriter.t) (row : list string)
    (rows : list (list string)) :
  CustomCsvWriter.writerows w (row :: rows)
  = CustomCsvWriter.writerows (CustomCsvWriter.writerow w row) rows.
Proof. reflexivity. Qed.

(** What [writerows] does to a writer: the text for the rows, which depends
    on the delimiter and the quote character only, goes after the text of
    the sink. *)
Lemma writerows_text (rows : list (list string)) :
  forall w,
    CustomCsvWriter.writerows w rows
    = CustomCsvWriter.Build
        (CustomCsvWriter.file_obj w
         ++ CustomCsvWriter.file_obj
              (CustomCsvWriter.writerows
                 (CustomCsvWriter.Build EmptyString
                    (CustomCsvWriter.delimiter w)
                    (CustomCsvWriter.quotechar w)) rows))
        (CustomCsvWriter.delimiter w) (CustomCsvWriter.quotechar w).
Proof.
  induction rows as [|row rows IH]; intros [sink d q].
  - simpl. now rewrite append_empty_r.
  - rewrite !writerows_cons.
    cbn [CustomCsvWriter.file_obj CustomCsvWriter.delimiter
         CustomCsvWriter.quotechar].
    rewrite (IH (CustomCsvWriter.writerow (CustomCsvWriter.Build sink d q)
                   row)).
    rewrite (IH (CustomCsvWriter.writerow
                   (CustomCsvWriter.Build EmptyString d q) row)).
    rewrite !writerow_build. simpl. now rewrite append_assoc.
Qed.

(** X9.  The writer only appends.  Writing rows leaves the text already in the
    sink in front and the delimiter and the quote character as they are,
    and the text added for rows followed by other rows is the text for the
    first followed by the text for the others, each as a writer on an
    empty sink writes it. *)
Theorem writerows_appends (w : CustomCsvWriter.t)
    (rows1 rows2 : list (list string)) :
  let blank := CustomCsvWriter.Build EmptyString
                 (CustomCsvWriter.delimiter w)
                 (CustomCsvWriter.quotechar w) in
  CustomCsvWriter.writerows w (rows1 ++ rows2)
  = CustomCsvWriter.Build
      (CustomCsvWriter.file_obj w
       ++ CustomCsvWriter.file_obj (CustomCsvWriter.writerows blank rows1)
       ++ CustomCsvWriter.file_obj (CustomCsvWriter.writerows blank rows2))
      (CustomCsvWriter.delimiter w) (CustomCsvWriter.quotechar w).
Proof.
  cbv zeta. unfold CustomCsvWriter.writerows at 1. rewrite fold_left_app.
  fold (CustomCsvWriter.writerows w rows1).
  fold (CustomCsvWriter.writerows (CustomCsvWriter.writerows w rows1) rows2).
  rewrite (writerows_text rows2), (writerows_text rows1 w). simpl.
  now rewrite append_assoc.
Qed.

(** ** Escaping *)

Lemma append_inj_r (a b c : string) :
  (a ++ c = b ++ c)%string -> a = b.
Proof.
  revert b. induction a as [|x a IH]; intros [|y b] H; simpl in H.
  - reflexivity.
  - apply (f_equal String.length) in H. simpl in H.
    rewrite length_append in H. lia.
  - apply (f_equal String.length) in H. simpl in H.
    rewrite length_append in H. lia.
  - injection H as -> H. f_equal. now apply IH.
Qed.

Lemma spec_double_quotes_inj (q : ascii) (f : string) :
  forall g, spec_double_quotes q f = spec_double_quotes q g -> f = g.
Proof.
  induction f as [|a f IH]; intros [|b g] H; simpl in H.
  - reflexivity.
  - destruct (Ascii.eqb b q); discriminate.
  - destruct (Ascii.eqb a q); discriminate.
  - destruct (Ascii.eqb a q) eqn:Ea, (Ascii.eqb b q) eqn:Eb.
    + apply Ascii.eqb_eq in Ea, Eb. subst a b.
      injection H as H. f_equal. now apply IH.
    + injection H as <- _. now rewrite Ascii.eqb_refl in Eb.
    + injection H as -> _. now rewrite Ascii.eqb_refl in Ea.
    + injection H as -> H. f_equal. now apply IH.
Qed.

(** X10.  Escaping loses nothing: whatever the delimiter and the quote character
    are, two fields that [_escape_field] writes as the same text are the
    same field. *)
Theorem escape_field_injective (self : CustomCsvWriter.t)
    (f g : string) :
  CustomCsvWriter._escape_field self f = CustomCsvWriter._escape_field self g ->
  f = g.
Proof.
  unfold CustomCsvWriter._escape_field.
  rewrite !replace_is_spec_double_quotes.
  set (q := CustomCsvWriter.quotechar self).
  assert (quoted_needs : forall x y,
             CustomCsvWriter.needs_quotes self y = false ->
             String q x <> y).
  { intros x y N <-. unfold CustomCsvWriter.needs_quotes in N.
    fold q in N. simpl in N. rewrite Ascii.eqb_refl in N.
    rewrite !orb_false_iff in N. destruct N as (((_ & (N & _)) & _) & _).
    discriminate N. }
  destruct (CustomCsvWriter.needs_quotes self f) eqn:Nf,
           (CustomCsvWriter.needs_quotes self g) eqn:Ng; intros H.
  - injection H as H. apply append_inj_r in H.
    now apply spec_double_quotes_inj in H.
  - now apply quoted_needs in H.
  - symmetry in H. now apply quoted_needs in H.
  - exact H.
Qed.

Lemma escape_field_injective_witness :
  CustomCsvWriter._escape_field
    (CustomCsvWriter.Build EmptyString COMMA DQUOTE) "a,b"%string
  = CustomCsvWriter._escape_field
      (CustomCsvWriter.Build EmptyString COMMA DQUOTE) "a,b"%string
  /\ "a,b"%string = "a,b"%string.
Proof.
  split; [reflexivity|].
  apply (escape_field_injective
           (CustomCsvWriter.Build EmptyString COMMA DQUOTE)).
  reflexivity.
Defined.

(** * Writing and reading again *)

(** A row without fields is written as the row of one empty field is. *)
Lemma writerow_as_read (w : CustomCsvWriter.t) (row : list string) :
  CustomCsvWriter.writerow w (as_read row) = CustomCsvWriter.writerow w row.
Proof. destruct row; reflexivity. Qed.

Lemma writerows_as_read (rows : list (list string)) :
  forall w,
    CustomCsvWriter.writerows w (map as_read rows)
    = CustomCsvWriter.writerows w rows.
Proof.
  induction rows as [|row rows IH]; intros w; [reflexivity|].
  cbn [map]. rewrite !writerows_cons, writerow_as_read. apply IH.
Qed.

Lemma as_read_not_nil (rows : list (list string)) :
  Forall (fun row : list string => row <> []) (map as_read rows).
Proof.
  induction rows as [|row rows IH]; constructor; [|exact IH].
  destruct row; discriminate.
Qed.

Lemma as_read_fixed (rows : list (list string)) :
  Forall (fun row : list string => row <> []) rows ->
  map as_read rows = rows.
Proof.
  induction 1 as [|row rows Hrow _ IH]; [reflexivity|].
  cbn [map]. rewrite IH. destruct row; [congruence | reflexivity].
Qed.

(** Writing any rows and reading the text back, with a valid
    configuration. *)
Lemma write_then_read_as_read (d q : ascii) (rows : list (list string)) :
  valid_config d q ->
  write_then_read d q rows = Ok (Some (map as_read rows)).
Proof.
  intros valid.
  destruct (written_rows_read_back d q valid (map as_read rows)
              (as_read_not_nil rows) EmptyString)
    as (text & Htext & Hlen & Hread).
  change (EmptyString ++ text)%string with text in Htext.
  rewrite writerows_as_read in Htext.
  unfold write_then_read, CustomCsvWriter.__init__, CustomCsvReader.__init__.
  cbv zeta. rewrite Htext, Hread by lia. reflexivity.
Qed.

(** X11.  Rows without fields come back with one empty field.  With a valid
    configuration, writing any rows and reading the text back gives the
    rows that were written, except that each row without fields comes back
    as the row of one empty field. *)
Theorem rows_come_back_as_read (d q : ascii) (rows : list (list string)) :
  valid_config d q ->
  write_then_read d q rows = Ok (Some (map as_read rows)).
Proof. apply write_then_read_as_read. Qed.

Lemma rows_come_back_as_read_witness :
  valid_config COMMA DQUOTE
  /\ write_then_read COMMA DQUOTE [["a"; "b"]%string; []; ["c,d"%string]]
     = Ok (Some [["a"; "b"]%string; [EmptyString]; ["c,d"%string]]).
Proof.
  assert (Hv : valid_config COMMA DQUOTE) by (repeat split; discriminate).
  split; [exact Hv|].
  exact (rows_come_back_as_read COMMA DQUOTE
           [["a"; "b"]%string; []; ["c,d"%string]] Hv).
Defined.

(** X12.  Writing again what was read changes nothing, as [test_round_trip]
    checks on its data.  With a valid configuration, when rows are written
    and read back, the rows read are written as the very text they were
    read from, and reading that text gives them again. *)
Theorem second_round_trip_same (d q : ascii)
    (rows rows1 : list (list string)) :
  valid_config d q ->
  write_then_read d q rows = Ok (Some rows1) ->
  CustomCsvWriter.writerows (CustomCsvWriter.Build EmptyString d q) rows1
  = CustomCsvWriter.writerows (CustomCsvWriter.Build EmptyString d q) rows
  /\ write_then_read d q rows1 = Ok (Some rows1).
Proof.
  intros valid H.
  rewrite (write_then_read_as_read d q rows valid) in H.
  injection H as <-. split.
  - apply writerows_as_read.
  - rewrite (write_then_read_as_read d q _ valid).
    now rewrite (as_read_fixed _ (as_read_not_nil rows)).
Qed.

Lemma second_round_trip_same_witness :
  valid_config COMMA DQUOTE
  /\ write_then_read COMMA DQUOTE ([] :: example_rows)
     = Ok (Some ([EmptyString] :: example_rows))
  /\ CustomCsvWriter.writerows
       (CustomCsvWriter.Build EmptyString COMMA DQUOTE)
       ([EmptyString] :: example_rows)
     = CustomCsvWriter.writerows
         (CustomCsvWriter.Build EmptyString COMMA DQUOTE)
         ([] :: example_rows)
  /\ write_then_read COMMA DQUOTE ([EmptyString] :: example_rows)
     = Ok (Some ([EmptyString] :: example_rows)).
Proof.
  assert (Hv : valid_config COMMA DQUOTE) by (repeat split; discriminate).
  assert (H : write_then_read COMMA DQUOTE ([] :: example_rows)
              = Ok (Some ([EmptyString] :: example_rows))) by reflexivity.
  split; [exact Hv | split; [exact H|]].
  exact (second_round_trip_same COMMA DQUOTE ([] :: example_rows)
           ([EmptyString] :: example_rows) Hv H).
Defined.

(** * The data of the benchmark *)

Lemma uint_no_special (u : Decimal.uint) :
  contains COMMA (NilEmpty.string_of_uint u) = false
  /\ contains DQUOTE (NilEmpty.string_of_uint u) = false
  /\ contains LF (NilEmpty.string_of_uint u) = false
  /\ contains CR (NilEmpty.string_of_uint u) = false.
Proof.
  induction u as [|u IH|u IH|u IH|u IH|u IH|u IH|u IH|u IH|u IH|u IH];
    simpl; auto.
Qed.

Lemma str_int_no_special (n : nat) :
  contains COMMA (str_int n) = false
  /\ contains DQUOTE (str_int n) = false
  /\ contains LF (str_int n) = false
  /\ contains CR (str_int n) = false.
Proof. apply uint_no_special. Qed.

(** X13.  What the benchmark's data asks of the writer, with the default
    delimiter and quote character: in every row the fields of the columns
    0 and 3 are written as they are, and the fields of every other column
    are written in quotes. *)
Theorem synthetic_data_quoting (sink : string) (i j : nat) :
  CustomCsvWriter.needs_quotes (CustomCsvWriter.Build sink COMMA DQUOTE)
    (synthetic_field i j)
  = negb (Nat.eqb j 0 || Nat.eqb j 3).
Proof.
  destruct (str_int_no_special i) as (I1 & I2 & I3 & I4).
  destruct (str_int_no_special j) as (J1 & J2 & J3 & J4).
  unfold CustomCsvWriter.needs_quotes, synthetic_field.
  cbn [CustomCsvWriter.delimiter CustomCsvWriter.quotechar].
  destruct j as [|[|[|[|j]]]]; cbn [Nat.eqb orb negb];
    repeat (rewrite ?contains_append; cbn [contains append]);
    rewrite ?I1, ?I2, ?I3, ?I4, ?J1, ?J2, ?J3, ?J4; reflexivity.
Qed.

(** X14.  The benchmark's write and read.  With a valid configuration and one
    column or more, the data of the benchmark is read back from the text
    written for it exactly as it was generated. *)
Theorem synthetic_data_round_trip (d q : ascii) (rows cols : nat) :
  valid_config d q -> 0 < cols ->
  write_then_read d q (generate_synthetic_data rows cols)
  = Ok (Some (generate_synthetic_data rows cols)).
Proof.
  intros valid Hcols.
  rewrite (write_then_read_as_read d q _ valid). do 2 f_equal.
  apply as_read_fixed. apply Forall_forall. intros row Hin.
  unfold generate_synthetic_data in Hin.
  apply in_map_iff in Hin. destruct Hin as (i & <- & _).
  destruct cols; [lia | discriminate].
Qed.

Lemma synthetic_data_round_trip_witness :
  valid_config COMMA DQUOTE /\ 0 < 5
  /\ write_then_read COMMA DQUOTE (generate_synthetic_data 3 5)
     = Ok (Some (generate_synthetic_data 3 5)).
Proof.
  assert (Hv : valid_config COMMA DQUOTE) by (repeat split; discriminate).
  assert (Hc : 0 < 5) by lia.
  split; [exact Hv | split; [exact Hc|]].
  exact (synthetic_data_round_trip COMMA DQUOTE 3 5 Hv Hc).
Defined.

(** * Quotes out of place *)

(** Outside quotes and with the buffer not empty, text without delimiter
    and newline character goes to the buffer as it is, quote characters
    included. *)
Lemma read_started_field (d q : ascii) (f : string) :
  forall c field_chars row tail,
    contains d f = false -> contains LF f = false -> contains CR f = false ->
    CustomCsvReader.read_loop d q false (c :: field_chars) row (f ++ tail)
    = CustomCsvReader.read_loop d q false
        ((c :: field_chars) ++ list_ascii_of_string f) row tail.
Proof.
  induction f as [|a f IH]; intros c fc row tail Hd Hlf Hcr.
  - simpl. now rewrite app_nil_r.
  - apply contains_false_cons in Hd, Hlf, Hcr.
    destruct Hd as [Ed Hd], Hlf as [Elf Hlf], Hcr as [Ecr Hcr].
    cbn [append CustomCsvReader.read_loop truthy negb].
    unfold is_newline. rewrite Ed, Elf, Ecr. cbn [andb orb].
    change ((c :: fc) ++ [a]) with (c :: (fc ++ [a])).
    destruct (Ascii.eqb a q); rewrite (IH c (fc ++ [a])) by assumption;
      simpl; now rewrite <- app_assoc.
Qed.

(** X15.  Quote characters inside a field that did not start with one are
    literal.  With a valid configuration, a field that starts with a
    character other than the quote character and holds no delimiter and no
    newline character is read as it is up to the delimiter after it,
    whatever quote characters come after its first character. *)
Theorem quotes_inside_field_literal (d q c : ascii) (f : string)
    (row : list string) (rest : string) :
  valid_config d q ->
  Ascii.eqb c q = false ->
  contains d (String c f) = false ->
  contains LF (String c f) = false ->
  contains CR (String c f) = false ->
  CustomCsvReader.read_loop d q false [] row (String c f ++ String d rest)
  = CustomCsvReader.read_loop d q false [] (row ++ [String c f]) rest.
Proof.
  intros (Hdq & _ & _) Ecq Hd Hlf Hcr.
  assert (Edq : Ascii.eqb d q = false) by now apply Ascii.eqb_neq.
  apply contains_false_cons in Hd, Hlf, Hcr.
  destruct Hd as [Ed Hd], Hlf as [Elf Hlf], Hcr as [Ecr Hcr].
  cbn [append CustomCsvReader.read_loop].
  unfold is_newline at 1. rewrite Ecq, Ed, Elf, Ecr. cbn [andb orb app].
  rewrite (read_started_field d q f c [] row _ Hd Hlf Hcr).
  cbn [CustomCsvReader.read_loop negb andb].
  rewrite Edq, Ascii.eqb_refl.
  change ([c] ++ list_ascii_of_string f)
    with (list_ascii_of_string (String c f)).
  now rewrite join_chars_of_string.
Qed.

Lemma quotes_inside_field_literal_witness :
  valid_config COMMA DQUOTE
  /\ CustomCsvReader.read_loop COMMA DQUOTE false [] []
       (String "a" (q1 ++ "b" ++ q1 ++ q1) ++ String COMMA "z")
     = CustomCsvReader.read_loop COMMA DQUOTE false []
         ([] ++ [String "a" (q1 ++ "b" ++ q1 ++ q1)]) "z".
Proof.
  assert (Hv : valid_config COMMA DQUOTE) by (repeat split; discriminate).
  split; [exact Hv|].
  apply (quotes_inside_field_literal COMMA DQUOTE "a"
           (q1 ++ "b" ++ q1 ++ q1)%string [] "z"%string Hv);
    reflexivity.
Defined.

(** X16.  Text after a closing quote is taken into the field.  With a valid
    configuration, when a quoted field is followed, before the delimiter,
    by text without delimiter, quote character and newline character, the
    field read is what was in the quotes followed by that text. *)
Theorem text_after_closing_quote (d q : ascii) (field extra : string)
    (row : list string) (rest : string) :
  valid_config d q ->
  contains d extra = false -> contains q extra = false ->
  contains LF extra = false -> contains CR extra = false ->
  CustomCsvReader.read_loop d q false [] row
    (spec_quoted q field ++ extra ++ String d rest)
  = CustomCsvReader.read_loop d q false [] (row ++ [(field ++ extra)%string])
      rest.
Proof.
  intros (Hdq & _ & _) Hd Hq Hlf Hcr.
  assert (Edq : Ascii.eqb d q = false) by now apply Ascii.eqb_neq.
  assert (chars_append : forall a b,
             list_ascii_of_string (a ++ b)
             = list_ascii_of_string a ++ list_ascii_of_string b).
  { intros a b. induction a as [|x a IH]; simpl; [reflexivity|].
    now rewrite IH. }
  change (spec_quoted q field ++ extra ++ String d rest)%string
    with (String q ((spec_double_quotes q field ++ String q EmptyString)
                    ++ extra ++ String d rest)).
  rewrite read_open_quote, append_assoc.
  rewrite <- replace_is_spec_double_quotes, read_quoted.
  rewrite app_nil_l.
  change (String q EmptyString ++ ?x)%string with (String q x).
  destruct extra as [|c extra].
  - cbn [append CustomCsvReader.read_loop].
    rewrite Ascii.eqb_refl, Edq, Ascii.eqb_refl.
    now rewrite append_empty_r, join_chars_of_string.
  - apply contains_false_cons in Hd, Hq, Hlf, Hcr.
    destruct Hd as [Ed Hd], Hq as [Eq Hq], Hlf as [Elf Hlf],
      Hcr as [Ecr Hcr].
    cbn [append CustomCsvReader.read_loop].
    unfold is_newline at 1.
    rewrite Ascii.eqb_refl, Eq, Ed, Elf, Ecr. cbn [orb].
    rewrite (read_plain d q extra _ row _ Hd Hq Hlf Hcr).
    cbn [CustomCsvReader.read_loop negb andb].
    rewrite Edq, Ascii.eqb_refl.
    rewrite <- app_assoc.
    change ([c] ++ list_ascii_of_string extra)
      with (list_ascii_of_string (String c extra)).
    now rewrite <- chars_append, join_chars_of_string.
Qed.

Lemma text_after_closing_quote_witness :
  valid_config COMMA DQUOTE
  /\ CustomCsvReader.read_loop COMMA DQUOTE false [] []
       (spec_quoted DQUOTE "a,b" ++ "cd" ++ String COMMA "z")
     = CustomCsvReader.read_loop COMMA DQUOTE false []
         ([] ++ [("a,b" ++ "cd")%string]) "z".
Proof.
  assert (Hv : valid_config COMMA DQUOTE) by (repeat split; discriminate).
  split; [exact Hv|].
  apply (text_after_closing_quote COMMA DQUOTE "a,b"%string "cd"%string []
           "z"%string Hv);
    reflexivity.
Defined.

(** * The last line of the source *)

(** Deciding every test that a hypothesis still holds. *)
Ltac every_test H :=
  repeat match type of H with
         | context [if ?c then _ else _] => destruct c eqn:?
         end.

(** A branch of the loop that goes round again on the rest of the text,
    for the induction below. *)
Ltac drop_last_continues IH H :=
  apply IH in H;
  [exact H
  |simpl in *; lia
  |first [ right; left; reflexivity
         | right; right; left; apply app_one_not_nil
         | right; right; right; apply app_one_not_nil ]].

(** A row that ends with the last character of the text is read without
    that character too.  When a run of the loop uses up a text and returns
    a row with [_eof] clear, so that the last character of the text ended
    the row, the run on the text without its last character returns the
    same row, with [_eof] set, unless there is nothing at all to return:
    no text, no open quote, an empty buffer and an empty row. *)
Lemma read_loop_drop_last_upto (d q nl : ascii) (n : nat) :
  forall src, String.length src <= n ->
  forall in_quotes field_chars row r,
    CustomCsvReader.read_loop d q in_quotes field_chars row
      (src ++ String nl EmptyString)
    = (Some r, EmptyString, false) ->
    src <> EmptyString \/ in_quotes = true \/ field_chars <> []
    \/ row <> [] ->
    CustomCsvReader.read_loop d q in_quotes field_chars row src
    = (Some r, EmptyString, true).
Proof.
  assert (base : forall iq fc row r,
             CustomCsvReader.read_loop d q iq fc row (String nl EmptyString)
             = (Some r, EmptyString, false) ->
             EmptyString <> EmptyString \/ iq = true \/ fc <> []
             \/ row <> [] ->
             CustomCsvReader.read_loop d q iq fc row EmptyString
             = (Some r, EmptyString, true)).
  { intros iq fc row r H Hinv.
    destruct iq; cbn [CustomCsvReader.read_loop negb andb] in H |- *;
      rewrite ?andb_true_r, ?andb_false_r in H;
      every_test H; try discriminate H.
    injection H as <-.
    destruct fc; [|reflexivity]. destruct row; [|reflexivity].
    destruct Hinv as [Hi | [Hi | [Hi | Hi]]]; congruence. }
  induction n as [|n IH]; intros src Hlen; destruct src as [|ch rest];
    simpl in Hlen; try lia; try exact base.
  intros iq fc row r H _.
  cbn [append CustomCsvReader.read_loop] in H |- *.
  destruct (Ascii.eqb ch q).
  - destruct iq.
    + destruct rest as [|next rest'].
      * cbn [append CustomCsvReader.read_loop] in H.
        every_test H; try discriminate H.
        injection H as <-. reflexivity.
      * cbn [append] in H.
        destruct (Ascii.eqb next q); [drop_last_continues IH H|].
        destruct (Ascii.eqb next d); [drop_last_continues IH H|].
        destruct (is_newline next); [|drop_last_continues IH H].
        injection H as _ H. destruct rest'; discriminate H.
    + destruct (negb (truthy fc)); drop_last_continues IH H.
  - destruct (Ascii.eqb ch d && negb iq); [drop_last_continues IH H|].
    destruct (is_newline ch && negb iq); [|drop_last_continues IH H].
    injection H as _ H. destruct rest; discriminate H.
Qed.

(** X17.  The last row is not dropped.  When the unread text is a line
    that is not empty followed by one last character, and a call of
    [__next__] on it returns a row, uses up the text and leaves [_eof]
    clear, so that the last character ended the row, then a call on the
    line without that character returns the same row, uses up the text
    and sets [_eof], whatever the delimiter and the quote character are and
    whether the line ends inside quotes, after a closing quote or outside
    quotes. *)
Theorem last_row_without_terminator (d q nl : ascii) (line : string)
    (r : list string) :
  line <> EmptyString ->
  CustomCsvReader.__next__
    (CustomCsvReader.Build (line ++ String nl EmptyString) d q false)
  = (CustomCsvReader.Row r, CustomCsvReader.Build EmptyString d q false) ->
  CustomCsvReader.__next__ (CustomCsvReader.Build line d q false)
  = (CustomCsvReader.Row r, CustomCsvReader.Build EmptyString d q true).
Proof.
  intros Hline N. apply next_row_inv in N. destruct N as (_ & _ & _ & R).
  cbn [CustomCsvReader.file_obj CustomCsvReader.delimiter
       CustomCsvReader.quotechar CustomCsvReader._eof] in R.
  apply next_of_loop.
  apply (read_loop_drop_last_upto d q nl _ line (Nat.le_refl _) _ _ _ _ R).
  now left.
Qed.

(** The last line in quotes, with and without its line feed. *)
Lemma last_row_without_terminator_witness :
  ("a," ++ q1 ++ "b" ++ q1)%string <> EmptyString
  /\ CustomCsvReader.__next__
       (CustomCsvReader.Build
          (("a," ++ q1 ++ "b" ++ q1) ++ String LF EmptyString)%string
          COMMA DQUOTE false)
     = (CustomCsvReader.Row ["a"; "b"]%string,
        CustomCsvReader.Build EmptyString COMMA DQUOTE false)
  /\ CustomCsvReader.__next__
       (CustomCsvReader.Build ("a," ++ q1 ++ "b" ++ q1)%string
          COMMA DQUOTE false)
     = (CustomCsvReader.Row ["a"; "b"]%string,
        CustomCsvReader.Build EmptyString COMMA DQUOTE true).
Proof.
  assert (Hl : ("a," ++ q1 ++ "b" ++ q1)%string <> EmptyString)
    by discriminate.
  assert (Hn : CustomCsvReader.__next__
                 (CustomCsvReader.Build
                    (("a," ++ q1 ++ "b" ++ q1) ++ String LF EmptyString)%string
                    COMMA DQUOTE false)
               = (CustomCsvReader.Row ["a"; "b"]%string,
                  CustomCsvReader.Build EmptyString COMMA DQUOTE false))
    by reflexivity.
  split; [exact Hl | split; [exact Hn|]].
  exact (last_row_without_terminator COMMA DQUOTE LF _ _ Hl Hn).
Defined.

(** Calls on complete lines with more text after them: the calls that use
    up the lines give what they gave, and the calls after them are the
    calls on the text that was added. *)
Lemma calls_extend (n : nat) (d q : ascii) :
  forall text results,
    CustomCsvReader.calls n (CustomCsvReader.Build text d q false)
    = (results, CustomCsvReader.Build EmptyString d q false) ->
    forall more m,
      CustomCsvReader.calls (n + m)
        (CustomCsvReader.Build (text ++ more) d q false)
      = (results
         ++ fst (CustomCsvReader.calls m
                   (CustomCsvReader.Build more d q false)),
         snd (CustomCsvReader.calls m
                (CustomCsvReader.Build more d q false))).
Proof.
  induction n as [|n IH]; intros text results H more m.
  - simpl in H. injection H as <- ->. simpl.
    now destruct (CustomCsvReader.calls m _).
  - simpl in H.
    destruct (CustomCsvReader.__next__ (CustomCsvReader.Build text d q false))
      as [res s1] eqn:N.
    destruct (CustomCsvReader.calls n s1) as [ress s2] eqn:C.
    injection H as <- ->.
    assert (E1 : CustomCsvReader._eof s1 = false).
    { destruct (CustomCsvReader._eof s1) eqn:E; [|reflexivity].
      rewrite (calls_at_eof n s1 E) in C. injection C as _ Hs.
      rewrite Hs in E. discriminate E. }
    destruct res as [|r].
    { apply next_stop_sets_eof in N. congruence. }
    apply next_row_inv in N. simpl in N.
    destruct N as (_ & Hd & Hq & R).
    destruct s1 as [u d1 q1' e1]. simpl in *. subst d1 q1' e1.
    apply (read_loop_prefix_upto _ _ _ _ (Nat.le_refl _)) in R.
    destruct R as (c & -> & Ht).
    rewrite append_assoc.
    rewrite (next_of_loop _ _ _ _ _ _ (Ht eq_refl (u ++ more)%string)).
    now rewrite (IH u ress C more m).
Qed.

(** X18.  The same rows with and without the last terminator.  When [n]
    calls use up a text of complete lines, and a last line that is not
    empty, followed by one last character, is read as a row that this
    character ends, then the lines followed by the last line give the same
    results with and without that character: the rows of the lines, the row
    of the last line, and [StopIteration] at once after it, so that the
    last row is not dropped and no row comes after it. *)
Theorem same_rows_without_last_terminator (n : nat) (d q nl : ascii)
    (text line : string) (results : list CustomCsvReader.next_result)
    (r : list string) :
  CustomCsvReader.calls n (CustomCsvReader.Build text d q false)
  = (results, CustomCsvReader.Build EmptyString d q false) ->
  line <> EmptyString ->
  CustomCsvReader.__next__
    (CustomCsvReader.Build (line ++ String nl EmptyString) d q false)
  = (CustomCsvReader.Row r, CustomCsvReader.Build EmptyString d q false) ->
  CustomCsvReader.calls (n + 2)
    (CustomCsvReader.Build (text ++ line ++ String nl EmptyString) d q false)
  = (results ++ [CustomCsvReader.Row r; CustomCsvReader.StopIteration],
     CustomCsvReader.Build EmptyString d q true)
  /\ CustomCsvReader.calls (n + 2)
       (CustomCsvReader.Build (text ++ line) d q false)
     = (results ++ [CustomCsvReader.Row r; CustomCsvReader.StopIteration],
        CustomCsvReader.Build EmptyString d q true).
Proof.
  intros C Hline N.
  assert (N' : CustomCsvReader.__next__ (CustomCsvReader.Build line d q false)
               = (CustomCsvReader.Row r,
                  CustomCsvReader.Build EmptyString d q true)).
  { apply next_row_inv in N. destruct N as (_ & _ & _ & R).
    cbn [CustomCsvReader.file_obj CustomCsvReader.delimiter
         CustomCsvReader.quotechar CustomCsvReader._eof] in R.
    apply next_of_loop.
    apply (read_loop_drop_last_upto d q nl _ line (Nat.le_refl _) _ _ _ _ R).
    now left. }
  split; rewrite (calls_extend n d q text results C);
    cbn [CustomCsvReader.calls]; rewrite ?N, ?N';
    rewrite next_on_exhausted by reflexivity; reflexivity.
Qed.

Lemma same_rows_without_last_terminator_witness :
  CustomCsvReader.calls 1
    (CustomCsvReader.Build ("x,y" ++ lf)%string COMMA DQUOTE false)
  = ([CustomCsvReader.Row ["x"; "y"]%string],
     CustomCsvReader.Build EmptyString COMMA DQUOTE false)
  /\ ("a," ++ q1 ++ "b" ++ q1)%string <> EmptyString
  /\ CustomCsvReader.calls 3
       (CustomCsvReader.Build
          (("x,y" ++ lf) ++ "a," ++ q1 ++ "b" ++ q1)%string
          COMMA DQUOTE false)
     = ([CustomCsvReader.Row ["x"; "y"]%string;
         CustomCsvReader.Row ["a"; "b"]%string;
         CustomCsvReader.StopIteration],
        CustomCsvReader.Build EmptyString COMMA DQUOTE true).
Proof.
  assert (Hc : CustomCsvReader.calls 1
                 (CustomCsvReader.Build ("x,y" ++ lf)%string COMMA DQUOTE
                    false)
               = ([CustomCsvReader.Row ["x"; "y"]%string],
                  CustomCsvReader.Build EmptyString COMMA DQUOTE false))
    by reflexivity.
  assert (Hl : ("a," ++ q1 ++ "b" ++ q1)%string <> EmptyString)
    by discriminate.
  assert (Hn : CustomCsvReader.__next__
                 (CustomCsvReader.Build
                    (("a," ++ q1 ++ "b" ++ q1) ++ String LF EmptyString)%string
                    COMMA DQUOTE false)
               = (CustomCsvReader.Row ["a"; "b"]%string,
                  CustomCsvReader.Build EmptyString COMMA DQUOTE false))
    by reflexivity.
  split; [exact Hc | split; [exact Hl|]].
  exact (proj2 (same_rows_without_last_terminator 1 COMMA DQUOTE LF _ _ _ _
                  Hc Hl Hn)).
Defined.

(** * A carriage return and a line feed at the end of the source *)

Lemma read_text_of_list (d q : ascii) (text : string) (fuel : nat)
    (rows : list (list string)) (self' : CustomCsvReader.t) :
  CustomCsvReader.list_ fuel (CustomCsvReader.Build text d q false)
  = Some (rows, self') ->
  fuel <= S (String.length text) ->
  read_text d q text = Some rows.
Proof.
  intros H Hle. unfold read_text, CustomCsvReader.__init__.
  now rewrite (list_more_fuel _ _ _ H _ Hle).
Qed.

(** C6, on the code.  With a valid configuration, take a last line of
    fields that hold no delimiter, no quote character and no newline
    character.  The reader gives the row of these fields, and nothing
    more, when the source ends with the line and a line feed, with the
    line and a carriage return, or, the line not being empty, with the
    line itself: the last row is not dropped and no row follows it.  When
    the source ends with the line, a carriage return and a line feed, the
    reader gives the row and then one more row, of one empty field. *)
Theorem crlf_end_gives_a_trailing_row (d q : ascii) (field : string)
    (fields : list string) :
  valid_config d q ->
  Forall (fun f => contains d f = false /\ contains q f = false
                   /\ contains LF f = false /\ contains CR f = false)
    (field :: fields) ->
  let line := String.concat (String d EmptyString) (field :: fields) in
  read_text d q (line ++ String CR (String LF EmptyString))
  = Some [field :: fields; [EmptyString]]
  /\ read_text d q (line ++ String LF EmptyString) = Some [field :: fields]
  /\ read_text d q (line ++ String CR EmptyString) = Some [field :: fields]
  /\ (line <> EmptyString -> read_text d q line = Some [field :: fields]).
Proof.
  intros valid Hall line.
  destruct (valid_eqbs d q valid) as (Edq & Elq & Eld).
  destruct valid as (_ & Hd & Hq).
  apply newline_not_eqb in Hd, Hq.
  destruct Hd as (_ & Ecd), Hq as (_ & Ecq).
  assert (Hplain : Forall (plain d q) (field :: fields)).
  { eapply Forall_impl; [|exact Hall]. intros f (H1 & H2 & H3 & H4).
    unfold CustomCsvWriter.needs_quotes. simpl. now rewrite H1, H2, H3, H4. }
  assert (Hempty : Forall (plain d q) [EmptyString])
    by (constructor; [reflexivity | constructor]).
  assert (ended : forall nl rest,
             Ascii.eqb nl q = false -> Ascii.eqb nl d = false ->
             is_newline nl = true ->
             CustomCsvReader.__next__
               (CustomCsvReader.Build (line ++ String nl rest) d q false)
             = (CustomCsvReader.Row (field :: fields),
                CustomCsvReader.Build rest d q false)).
  { intros nl rest Enq End Enl. apply next_of_loop.
    now apply (read_plain_line d q nl fields Edq Enq End Enl field []). }
  assert (empty_line :
            CustomCsvReader.__next__
              (CustomCsvReader.Build (String LF EmptyString) d q false)
            = (CustomCsvReader.Row [EmptyString],
               CustomCsvReader.Build EmptyString d q false)).
  { apply next_of_loop.
    exact (read_plain_line d q LF [] Edq Elq Eld is_newline_LF
             EmptyString [] EmptyString Hempty). }
  split; [|split; [|split]].
  - apply (read_text_of_list d q _ 3 _
             (CustomCsvReader.Build EmptyString d q true)).
    + cbn [CustomCsvReader.list_].
      rewrite (ended CR _ Ecq Ecd eq_refl), empty_line.
      rewrite next_on_exhausted by reflexivity. reflexivity.
    + rewrite length_append. simpl. lia.
  - apply (read_text_of_list d q _ 2 _
             (CustomCsvReader.Build EmptyString d q true)).
    + cbn [CustomCsvReader.list_].
      rewrite (ended LF _ Elq Eld is_newline_LF).
      rewrite next_on_exhausted by reflexivity. reflexivity.
    + rewrite length_append. simpl. lia.
  - apply (read_text_of_list d q _ 2 _
             (CustomCsvReader.Build EmptyString d q true)).
    + cbn [CustomCsvReader.list_].
      rewrite (ended CR _ Ecq Ecd eq_refl).
      rewrite next_on_exhausted by reflexivity. reflexivity.
    + rewrite length_append. simpl. lia.
  - intros Hline.
    apply (read_text_of_list d q _ 2 _
             (CustomCsvReader.Build EmptyString d q true)).
    + cbn [CustomCsvReader.list_].
      rewrite (next_of_loop d q line EmptyString (field :: fields) true).
      * rewrite next_on_exhausted by reflexivity. reflexivity.
      * apply (read_plain_last_line d q fields Edq field [] Hplain).
        right. destruct fields as [|g fields]; [right | left; discriminate].
        intros ->. now apply Hline.
    + destruct line; [congruence | simpl; lia].
Qed.

(** The text [a,b] with the four endings, under the default
    configuration. *)
Lemma crlf_end_gives_a_trailing_row_witness :
  valid_config COMMA DQUOTE
  /\ read_text COMMA DQUOTE ("a,b" ++ crlf)%string
     = Some [["a"; "b"]%string; [EmptyString]]
  /\ read_text COMMA DQUOTE ("a,b" ++ lf)%string = Some [["a"; "b"]%string]
  /\ read_text COMMA DQUOTE ("a,b" ++ String CR EmptyString)%string
     = Some [["a"; "b"]%string]
  /\ read_text COMMA DQUOTE "a,b"%string = Some [["a"; "b"]%string].
Proof.
  assert (Hv : valid_config COMMA DQUOTE) by (repeat split; discriminate).
  assert (Hall : Forall (fun f => contains COMMA f = false
                                  /\ contains DQUOTE f = false
                                  /\ contains LF f = false
                                  /\ contains CR f = false)
                   ["a"; "b"]%string)
    by (repeat constructor).
  pose proof (crlf_end_gives_a_trailing_row COMMA DQUOTE "a"%string
                ["b"%string] Hv Hall) as (H1 & H2 & H3 & H4).
  split; [exact Hv | split; [exact H1 | split; [exact H2 | split]]].
  - exact H3.
  - apply H4. discriminate.
Defined.
